(** * A local tile server (server.js): model and verified properties

    The server is an Express application with one tile route, three
    introspection routes, a static-asset middleware and two terminal
    middlewares.  This development embeds [server.js] in Rocq:

    - [JS]: the fragment of JavaScript values the file relies on (strings,
      numbers, truthiness, [||], [toLowerCase], [parseInt],
      [Number.prototype.toString], [decodeURIComponent],
      [Array.prototype.sort] with a comparator, member lookup on an object
      literal);
    - [Posix]: [path.join] on POSIX paths;
    - [FS]: a file-system tree with the operations the file calls
      ([fs.access], [fs.readdirSync], [fs.statSync] and the read done by
      [res.sendFile]);
    - the handlers themselves, written in a small state monad whose state is
      the file system together with the console.

    A string is the UTF-8 form of a JavaScript string, byte by byte.  A
    number is NaN, an infinity, or an integer that a double holds:
    [parseInt] and the subtraction round as doubles do.  Three limits:
    the case mapping of letters beyond U+00FF is not described (none of
    them lower-cases to a letter of the format table); requests carry no
    conditional and no range header; and a path handed to the file
    system holds no NUL character. *)

From Stdlib Require Import ZArith List String Ascii Bool Lia.
From Stdlib Require Import Sorting.Sorted Sorting.Permutation.
From Stdlib Require Import DecimalString DecimalPos.
From Stdlib Require Strings.Byte.
Import ListNotations.

Set Warnings "-register-all".

Local Open Scope string_scope.
Local Open Scope Z_scope.

(* ================================================================== *)
(** * JavaScript values                                                 *)
(* ================================================================== *)

Module JS.

(** ** Numbers *)

Inductive number :=
| NaN
| Int (n : Z)
| Infinity (negative : bool).

Definition isNaN (v : number) : bool :=
  match v with NaN => true | _ => false end.

(** The double nearest to a non-negative integer, as an integer: beyond
    53 bits the low bits are rounded away, ties to the even neighbour. *)
Definition round53 (a : Z) : Z :=
  let drop := Z.log2 a + 1 - 53 in
  if drop <=? 0 then a
  else
    let q := Z.shiftr a drop in
    let r := a - Z.shiftl q drop in
    let half := Z.shiftl 1 (drop - 1) in
    let q' := if (half <? r) || ((r =? half) && Z.odd q) then q + 1 else q in
    Z.shiftl q' drop.

(** The number an integer becomes: its nearest double, an infinity when
    that is out of range. *)
Definition of_integer (v : Z) : number :=
  let m := round53 (Z.abs v) in
  if 2 ^ 1024 <=? m then Infinity (v <? 0)
  else Int (Z.sgn v * m).

(** [a - b] on numbers. *)
Definition sub (a b : number) : number :=
  match a, b with
  | Int x, Int y => of_integer (x - y)
  | Infinity s, Int _ => Infinity s
  | Int _, Infinity s => Infinity (negb s)
  | Infinity s, Infinity t => if Bool.eqb s t then NaN else Infinity s
  | _, _ => NaN
  end.

Definition decimal (n : Z) : string := NilZero.string_of_int (Z.to_int n).

(** The integer with the fewest significant digits that reads back as
    the double [a]; among several with as few digits, the nearest to
    [a], and the one with the even last digit when two are as near.
    [k] is the number of digits tried, [d] the number of digits of
    [a]. *)
Fixpoint shortest_from (fuel : nat) (k d a : Z) : Z :=
  match fuel with
  | O => a
  | S fuel' =>
      let scale := 10 ^ (d - k) in
      let lo := a / scale * scale in
      let hi := lo + scale in
      let ok_lo := round53 lo =? a in
      let ok_hi := round53 hi =? a in
      if ok_lo && ok_hi then
        if a - lo <? hi - a then lo
        else if hi - a <? a - lo then hi
        else if Z.even (a / scale) then lo else hi
      else if ok_lo then lo
      else if ok_hi then hi
      else shortest_from fuel' (k + 1) d a
  end.

(** Below 2^53 every integer is a double and stands for itself. *)
Definition shortest (a : Z) : Z :=
  if a <? 2 ^ 53 then a
  else shortest_from 17 1 (Z.of_nat (String.length (decimal a))) a.

Fixpoint strip_zeros (reversed : list ascii) : list ascii :=
  match reversed with
  | "0"%char :: r => strip_zeros r
  | _ => reversed
  end.

(** Scientific notation, for an integer from 10^21 on. *)
Definition exponential (digits : string) : string :=
  let exponent := decimal (Z.of_nat (String.length digits) - 1) in
  match rev (strip_zeros (rev (list_ascii_of_string digits))) with
  | [] => "0"
  | [c] => String c ("e+" ++ exponent)
  | c :: r => String c ("." ++ string_of_list_ascii r ++ "e+" ++ exponent)
  end.

(** [Number.prototype.toString()] in base ten, for the numbers above. *)
Definition toString (v : number) : string :=
  match v with
  | NaN => "NaN"
  | Infinity false => "Infinity"
  | Infinity true => "-Infinity"
  | Int n =>
      let m := shortest (Z.abs n) in
      let text :=
        if m <? 10 ^ 21 then decimal m else exponential (decimal m) in
      if n <? 0 then "-" ++ text else text
  end.

(** ** Strings *)

Definition code (c : ascii) : Z := Z.of_nat (nat_of_ascii c).

Definition between (lo hi : Z) (c : ascii) : bool :=
  (lo <=? code c) && (code c <=? hi).

Definition is_byte (n : Z) (c : ascii) : bool := code c =? n.

(** Lower-casing, byte by byte: A-Z, and the second byte of the capitals
    U+00C0..U+00DE (all but the multiplication sign), which follows the
    byte C3. *)
Definition lower_byte (after_c3 : bool) (c : ascii) : ascii :=
  if between 65 90 c
     || (after_c3 && between 128 158 c && negb (is_byte 151 c))
  then ascii_of_nat (nat_of_ascii c + 32)
  else c.

Fixpoint lower_from (after_c3 : bool) (s : string) : string :=
  match s with
  | EmptyString => EmptyString
  | String c r => String (lower_byte after_c3 c) (lower_from (is_byte 195 c) r)
  end.

(** [String.prototype.toLowerCase()]. *)
Definition toLowerCase (s : string) : string := lower_from false s.

(** White space and line terminators, in UTF-8: TAB, LF, VT, FF, CR and
    SP; U+00A0; U+1680, U+2000..U+200A, U+2028, U+2029, U+202F, U+205F,
    U+3000 and U+FEFF. *)
Definition is_space1 (c : ascii) : bool :=
  between 9 13 c || is_byte 32 c.

Definition is_space2 (c1 c2 : ascii) : bool :=
  is_byte 194 c1 && is_byte 160 c2.

Definition is_space3 (c1 c2 c3 : ascii) : bool :=
  (is_byte 225 c1 && is_byte 154 c2 && is_byte 128 c3)
  || (is_byte 226 c1 && is_byte 128 c2
      && (between 128 138 c3 || is_byte 168 c3 || is_byte 169 c3 || is_byte 175 c3))
  || (is_byte 226 c1 && is_byte 129 c2 && is_byte 159 c3)
  || (is_byte 227 c1 && is_byte 128 c2 && is_byte 128 c3)
  || (is_byte 239 c1 && is_byte 187 c2 && is_byte 191 c3).

Fixpoint trimStart (s : string) : string :=
  match s with
  | EmptyString => s
  | String c1 r1 =>
      if is_space1 c1 then trimStart r1
      else
        match r1 with
        | EmptyString => s
        | String c2 r2 =>
            if is_space2 c1 c2 then trimStart r2
            else
              match r2 with
              | EmptyString => s
              | String c3 r3 =>
                  if is_space3 c1 c2 c3 then trimStart r3 else s
              end
        end
  end.

(** Value of a character as a digit (0-9, a-z, A-Z), when it is one in
    the given radix. *)
Definition digit (radix : Z) (c : ascii) : option Z :=
  let v :=
    if between 48 57 c then code c - 48
    else if between 97 122 c then code c - 87
    else if between 65 90 c then code c - 55
    else radix in
  if v <? radix then Some v else None.

(** The longest prefix of digits, read in the radix; [acc] is the value
    read so far, when a digit has been read. *)
Fixpoint digits (radix : Z) (acc : option Z) (s : string) : option Z :=
  match s with
  | EmptyString => acc
  | String c r =>
      match digit radix c with
      | None => acc
      | Some d =>
          digits radix
            (Some (match acc with None => d | Some a => a * radix + d end)) r
      end
  end.

(** [parseInt(s)] with no radix argument: leading white space is dropped,
    then an optional sign, then an optional [0x]/[0X] prefix which selects
    base sixteen; the longest run of digits that follows is the value,
    rounded to a double, and there is NaN when that run is empty. *)
Definition parseInt (s : string) : number :=
  let s1 := trimStart s in
  let '(sign, s2) :=
    match s1 with
    | String "-" r => (-1, r)
    | String "+" r => (1, r)
    | _ => (1, s1)
    end in
  let '(radix, s3) :=
    match s2 with
    | String "0" (String "x" r) => (16, r)
    | String "0" (String "X" r) => (16, r)
    | _ => (10, s2)
    end in
  match digits radix None s3 with
  | None => NaN
  | Some v => of_integer (sign * v)
  end.

(** ** Percent escapes *)

(** A character of the text, or the byte an escape stands for. *)
Inductive item :=
| Plain (c : ascii)
| Escaped (b : Z).

(** The escapes of a text; nothing when a percent sign is not followed
    by two hexadecimal digits. *)
Fixpoint unescape (s : string) : option (list item) :=
  match s with
  | EmptyString => Some []
  | String "%" (String h (String l r)) =>
      match digit 16 h, digit 16 l, unescape r with
      | Some a, Some b, Some us => Some (Escaped (a * 16 + b) :: us)
      | _, _, _ => None
      end
  | String "%" _ => None
  | String c r =>
      match unescape r with
      | Some us => Some (Plain c :: us)
      | None => None
      end
  end.

Definition byte (b : Z) : ascii := ascii_of_nat (Z.to_nat b).

Definition within (lo hi b : Z) : bool := (lo <=? b) && (b <=? hi).

(** The bytes of the text: an escaped byte below 80 stands for itself,
    and the others must come as the escaped bytes of one well-formed
    UTF-8 sequence (no overlong form, no surrogate, nothing beyond
    U+10FFFF). *)
Fixpoint assemble (us : list item) : option string :=
  match us with
  | [] => Some ""
  | Plain c :: r => option_map (String c) (assemble r)
  | Escaped b :: r =>
      if b <? 128 then option_map (String (byte b)) (assemble r)
      else
        match r with
        | Escaped b2 :: r2 =>
            if within 194 223 b && within 128 191 b2 then
              option_map (fun t => String (byte b) (String (byte b2) t))
                         (assemble r2)
            else
              match r2 with
              | Escaped b3 :: r3 =>
                  if within 224 239 b
                     && within (if b =? 224 then 160 else 128)
                               (if b =? 237 then 159 else 191) b2
                     && within 128 191 b3 then
                    option_map
                      (fun t => String (byte b) (String (byte b2)
                                  (String (byte b3) t)))
                      (assemble r3)
                  else
                    match r3 with
                    | Escaped b4 :: r4 =>
                        if within 240 244 b
                           && within (if b =? 240 then 144 else 128)
                                     (if b =? 244 then 143 else 191) b2
                           && within 128 191 b3 && within 128 191 b4 then
                          option_map
                            (fun t => String (byte b) (String (byte b2)
                                        (String (byte b3)
                                           (String (byte b4) t))))
                            (assemble r4)
                        else None
                    | _ => None
                    end
              | _ => None
              end
        | _ => None
        end
  end.

(** [decodeURIComponent(s)]; nothing stands for the URIError. *)
Definition decodeURIComponent (s : string) : option string :=
  match unescape s with
  | Some us => assemble us
  | None => None
  end.

(** ** Arrays *)

(** [xs.sort(cmp)]: the comparator returns a number, and an element moves
    behind another exactly when the comparator is positive on the pair.  A
    stable insertion sort; NaN from the comparator counts as zero. *)
Definition positive (v : number) : bool :=
  match v with
  | NaN => false
  | Int n => 0 <? n
  | Infinity negative => negb negative
  end.

Fixpoint insert {A} (cmp : A -> A -> number) (x : A) (l : list A) : list A :=
  match l with
  | [] => [x]
  | y :: r => if positive (cmp x y) then y :: insert cmp x r else x :: l
  end.

Fixpoint sort {A} (cmp : A -> A -> number) (l : list A) : list A :=
  match l with
  | [] => []
  | x :: r => insert cmp x (sort cmp r)
  end.

(** ** Values in general *)

Inductive value :=
| VUndefined
| VNumber (n : number)
| VString (s : string)
| VFunction (name : string)
| VObject (tag : string).

(** ToBoolean. *)
Definition truthy (v : value) : bool :=
  match v with
  | VUndefined => false
  | VNumber NaN => false
  | VNumber (Int n) => negb (n =? 0)
  | VNumber (Infinity _) => true
  | VString s => negb (s =? "")%string
  | VFunction _ | VObject _ => true
  end.

(** [a || b]. *)
Definition or (a b : value) : value := if truthy a then a else b.

(** ToString, as a template literal or a header line applies it. *)
Definition show (v : value) : string :=
  match v with
  | VUndefined => "undefined"
  | VNumber n => toString n
  | VString s => s
  | VFunction name => "function " ++ name ++ "() { [native code] }"
  | VObject tag => "[object " ++ tag ++ "]"
  end.

(** ** Object literals *)

(** Own properties of an object literal, in source order. *)
Definition literal := list (string * value).

Fixpoint own (o : literal) (k : string) : option value :=
  match o with
  | [] => None
  | (k', v) :: r => if (k' =? k)%string then Some v else own r k
  end.

(** What [Object.prototype] answers for a key: its methods are functions,
    [__proto__] is an accessor that yields the prototype of the receiver,
    which is [Object.prototype] itself for an object literal. *)
Definition object_prototype (k : string) : value :=
  if (k =? "constructor")%string then VFunction "Object"
  else if (k =? "__proto__")%string then VObject "Object"
  else if existsb (String.eqb k)
            ["hasOwnProperty"; "isPrototypeOf"; "propertyIsEnumerable";
             "toLocaleString"; "toString"; "valueOf";
             "__defineGetter__"; "__defineSetter__";
             "__lookupGetter__"; "__lookupSetter__"]
       then VFunction k
  else VUndefined.

(** [o[k]] for an object literal [o]: own properties first, then the
    prototype. *)
Definition member (o : literal) (k : string) : value :=
  match own o k with
  | Some v => v
  | None => object_prototype k
  end.

End JS.

(** Whether a character is absent from a string. *)
Fixpoint lacks (c : ascii) (s : string) : bool :=
  match s with
  | EmptyString => true
  | String a r => negb (Ascii.eqb a c) && lacks c r
  end.

Definition nonempty (s : string) : bool := negb (s =? "")%string.

Definition ends_with_slash (s : string) : bool :=
  match rev (list_ascii_of_string s) with
  | "/"%char :: _ => true
  | _ => false
  end.

(* ================================================================== *)
(** * POSIX paths                                                       *)
(* ================================================================== *)

Module Posix.

(** An absolute, normalised path: its components from the root down.  A
    last component that is empty stands for a final slash, which
    normalisation keeps. *)
Definition path := list string.

(** Pieces of a string between occurrences of a separator; [cur] is the
    piece being read. *)
Fixpoint split_aux (sep : ascii) (cur : string) (s : string) : list string :=
  match s with
  | EmptyString => [cur]
  | String c r =>
      if Ascii.eqb c sep then cur :: split_aux sep EmptyString r
      else split_aux sep (cur ++ String c EmptyString) r
  end.

Definition split (sep : ascii) (s : string) : list string :=
  split_aux sep EmptyString s.

(** Normalisation below an absolute prefix, kept reversed in [acc]: empty
    and [.] components vanish, [..] removes the component before it and
    stays at the root when there is none. *)
Fixpoint normalize (acc : list string) (parts : list string) : path :=
  match parts with
  | [] => rev acc
  | p :: r =>
      if (p =? "")%string || (p =? ".")%string then normalize acc r
      else if (p =? "..")%string then normalize (tl acc) r
      else normalize (p :: acc) r
  end.

(** Whether the arguments, glued, end with a slash: empty arguments are
    skipped. *)
Definition trailing (args : list string) : bool :=
  fold_left (fun t a => if (a =? "")%string then t else ends_with_slash a)
            args false.

(** [path.join(base, ...args)] for an absolute [base]: the arguments are
    glued with [/] and the whole is normalised; a final slash stays,
    except on the root. *)
Definition join (base : path) (args : list string) : path :=
  let parts := normalize (rev base) (flat_map (split "/") args) in
  match parts with
  | [] => []
  | _ => if trailing args then (parts ++ [""])%list else parts
  end.

(** Whether the path, as text, ends with a slash. *)
Definition final_slash (p : path) : bool := (last p "" =? "")%string.

(** The path as text. *)
Definition render (p : path) : string :=
  match p with
  | [] => "/"
  | _ => String.concat "" (map (fun c => "/" ++ c) p)
  end.

End Posix.

(* ================================================================== *)
(** * The file system                                                   *)
(* ================================================================== *)

Module FS.

Definition bytes := list Byte.byte.

(** A node of the tree.  A file has its content and says whether it can
    be opened for reading; a directory has its entries, in the order the
    system lists them, and says whether it can be listed and whether it
    can be searched (whether a path may go through it); a dangling link
    is an entry whose target is missing.  A link to something that
    exists is that thing. *)
Inductive node :=
| File (content : bytes) (readable : bool)
| Dir (entries : list (string * node)) (listable searchable : bool)
| Dangling.

Inductive errno := ENOENT | ENOTDIR | EACCES | EISDIR.

Definition result (A : Type) := (errno + A)%type.

Fixpoint entry (es : list (string * node)) (name : string) : option node :=
  match es with
  | [] => None
  | (n, x) :: r => if (n =? name)%string then Some x else entry r name
  end.

(** The node a path leads to, links followed.  Going through a
    directory needs the right to search it; an empty component, the
    final slash, asks for a directory. *)
Fixpoint resolve (root : node) (p : Posix.path) : result node :=
  match p with
  | [] => match root with Dangling => inl ENOENT | _ => inr root end
  | c :: r =>
      match root with
      | Dir es _ searchable =>
          if (c =? "")%string then resolve root r
          else if searchable then
            match entry es c with
            | Some x => resolve x r
            | None => inl ENOENT
            end
          else inl EACCES
      | File _ _ => inl ENOTDIR
      | Dangling => inl ENOENT
      end
  end.

(** [fs.access(p, F_OK)]: does the path lead anywhere. *)
Definition access (root : node) (p : Posix.path) : bool :=
  match resolve root p with inr _ => true | inl _ => false end.

(** [fs.readdirSync(p)]: the names in a directory. *)
Definition readdirSync (root : node) (p : Posix.path) : result (list string) :=
  match resolve root p with
  | inr (Dir es true _) => inr (map fst es)
  | inr (Dir _ false _) => inl EACCES
  | inr _ => inl ENOTDIR
  | inl e => inl e
  end.

(** [fs.statSync(p).isDirectory()]. *)
Definition statSync_isDirectory (root : node) (p : Posix.path) : result bool :=
  match resolve root p with
  | inr (Dir _ _ _) => inr true
  | inr _ => inr false
  | inl e => inl e
  end.

(** The code of an error and what it means, as the message of the error
    starts. *)
Definition message (e : errno) : string :=
  match e with
  | ENOENT => "ENOENT: no such file or directory"
  | ENOTDIR => "ENOTDIR: not a directory"
  | EACCES => "EACCES: permission denied"
  | EISDIR => "EISDIR: illegal operation on a directory"
  end.

(** The whole message: the system call and the path follow. *)
Definition describe (e : errno) (syscall : string) (p : Posix.path) : string :=
  message e ++ ", " ++ syscall ++ " '" ++ Posix.render p ++ "'".

End FS.

(* ================================================================== *)
(** * Requests and responses                                            *)
(* ================================================================== *)

(** JSON documents, as [res.json] sends them.  A float is [m * 2^e]. *)
Inductive json :=
| JNull
| JNum (n : Z)
| JFloat (m e : Z)
| JStr (s : string)
| JArr (items : list json)
| JObj (members : list (string * json)).

(** [JSON.stringify] prints NaN and the infinities as [null]. *)
Definition json_of_number (v : JS.number) : json :=
  match v with JS.Int n => JNum n | _ => JNull end.

(** [o[k] = v] on an object under construction: an existing member is
    overwritten in place, a new one goes last.  (JavaScript enumerates
    integer keys before the others; the order of the members of a JSON
    object carries no meaning and no statement below depends on it.) *)
Fixpoint assign (o : list (string * json)) (k : string) (v : json)
  : list (string * json) :=
  match o with
  | [] => [(k, v)]
  | (k', v') :: r =>
      if (k' =? k)%string then (k, v) :: r else (k', v') :: assign r k v
  end.

Fixpoint member (o : list (string * json)) (k : string) : option json :=
  match o with
  | [] => None
  | (k', v) :: r => if (k' =? k)%string then Some v else member r k
  end.

(** A body: the bytes of a file, a JSON text, or the HTML page that
    goes with a redirection and names its target. *)
Inductive payload :=
| NoBody
| FileBody (content : FS.bytes)
| JsonBody (doc : json)
| Redirecting (location : string).

(** A Content-Type that the framework settles when it serialises a
    body: a value it was given, or the type [send] looks up for the
    extension of a file name (application/octet-stream when it knows
    none); [utf8] tells whether [res.send] has put the parameter
    charset=utf-8 on it. *)
Inductive media :=
| Given (type : JS.value) (utf8 : bool)
| ByExtension (file : string) (utf8 : bool).

(** The response object.  [headers] holds what the program sets with
    [res.setHeader], and what the two middlewares set, keyed by the
    lower-cased name.  [content_type] is the Content-Type the framework
    has settled on its own ([res.json], [res.send], [send]), which then
    goes out in place of the program's; it is kept apart so that the
    program's own choice stays readable.  The other headers the
    framework adds on its own (X-Powered-By, Date, and for a body
    Content-Length, ETag, Last-Modified, Accept-Ranges, and the
    Cache-Control of a static file) are not described. *)
Record response := Response {
  status : Z;
  headers : list (string * JS.value);
  body : payload;
  content_type : option media
}.

Definition fresh : response := Response 200 [] NoBody None.

Fixpoint put_header (k : string) (v : JS.value) (h : list (string * JS.value))
  : list (string * JS.value) :=
  match h with
  | [] => [(k, v)]
  | (k', v') :: r =>
      if (k' =? k)%string then (k, v) :: r else (k', v') :: put_header k v r
  end.

(** [res.setHeader(name, v)]. *)
Definition setHeader (name : string) (v : JS.value) (res : response)
  : response :=
  Response (status res) (put_header (JS.toLowerCase name) v (headers res))
           (body res) (content_type res).

(** The header as the program or a middleware set it. *)
Definition getHeader (name : string) (res : response) : option JS.value :=
  JS.own (headers res) (JS.toLowerCase name).

(** The Content-Type of the response at this point, if it has one that
    counts as set. *)
Definition current_type (res : response) : option media :=
  match content_type res with
  | Some m => Some m
  | None =>
      match getHeader "Content-Type" res with
      | Some v => if JS.truthy v then Some (Given v false) else None
      | None => None
      end
  end.

(** [res.status(code)]. *)
Definition set_status (code : Z) (res : response) : response :=
  Response code (headers res) (body res) (content_type res).

(** The Content-Type [res.json] leaves: application/json when the
    response has none, and [res.send] puts charset=utf-8 on a type that
    is a string. *)
Definition json_type (res : response) : media :=
  match current_type res with
  | Some (Given (JS.VString s) _) => Given (JS.VString s) true
  | Some (Given v utf8) => Given v utf8
  | Some (ByExtension file _) => ByExtension file true
  | None => Given (JS.VString "application/json") true
  end.

(** [res.json(doc)]. *)
Definition send_json (doc : json) (res : response) : response :=
  Response (status res) (headers res) (JsonBody doc) (Some (json_type res)).

(** The Content-Type [send] leaves for a file: the one the response
    has, or the one that goes with the extension. *)
Definition file_type (file : string) (res : response) : option media :=
  match current_type res with
  | Some _ => content_type res
  | None => Some (ByExtension file false)
  end.

(** The headers [send] writes once it has found the file. *)
Definition announce (file : string) (res : response) : response :=
  Response (status res) (headers res) (body res) (file_type file res).

(** What [send] leaves behind when the transfer succeeds. *)
Definition send_bytes (content : FS.bytes) (res : response) : response :=
  Response (status res) (headers res) (FileBody content) (content_type res).

Inductive method := GET | HEAD | OPTIONS | POST | PUT | PATCH | DELETE.

(** The answer to a HEAD request has the headers and no body. *)
Definition for_method (m : method) (res : response) : response :=
  match m with
  | HEAD => Response (status res) (headers res) NoBody (content_type res)
  | _ => res
  end.

(** A request: its method and [req.path], the path of the URL without
    the query, as it was sent (percent escapes included).  A request
    carries no conditional and no range header. *)
Record request := Request {
  verb : method;
  url : string
}.

(* ================================================================== *)
(** * The library that transmits files                                  *)
(* ================================================================== *)

(** [send], which both [res.sendFile] and [express.static] rely on. *)
Module Send.

(** What becomes of a transfer: the file is streamed, the path is a
    directory, or there is an error with a status and a message;
    [announced] tells whether the file had been found, and its headers
    written, when the error came. *)
Inductive result :=
| Streamed (content : FS.bytes)
| Directory
| Refused (code : Z) (message : string) (announced : bool).

Definition hidden (name : string) : bool :=
  match name with String "." _ => true | _ => false end.

(** A component that holds [..] between backslashes, which [send] takes
    for a separator too. *)
Definition up (component : string) : bool :=
  existsb (String.eqb "..") (Posix.split "\" component).

(** The status that goes with an error of the file system. *)
Definition status_of (e : FS.errno) : Z :=
  match e with
  | FS.ENOENT | FS.ENOTDIR => 404
  | _ => 500
  end.

(** A regular file: nothing is read for HEAD, and for GET the file is
    opened, which may fail. *)
Definition stream (m : method) (content : FS.bytes) (readable : bool)
    (p : Posix.path) : result :=
  match m with
  | HEAD => Streamed []
  | _ =>
      if readable then Streamed content
      else Refused 500 (FS.describe FS.EACCES "open" p) true
  end.

(** [sendFile]: the path is inspected, then sent. *)
Definition file (m : method) (root : FS.node) (p : Posix.path) : result :=
  match FS.resolve root p with
  | inr (FS.File content readable) => stream m content readable p
  | inr (FS.Dir _ _ _) => Directory
  | inr FS.Dangling => Refused 404 (FS.describe FS.ENOENT "stat" p) false
  | inl e => Refused (status_of e) (FS.describe e "stat" p) false
  end.

(** [sendIndex], for a path with a final slash: the [index.html] below
    it, when that is a file. *)
Definition index (m : method) (root : FS.node) (p : Posix.path) : result :=
  let target := (removelast p ++ ["index.html"])%list in
  match FS.resolve root target with
  | inr (FS.File content readable) => stream m content readable target
  | inr _ => Refused 404 "Not Found" false
  | inl e => Refused (status_of e) (FS.describe e "stat" target) false
  end.

(** The file whose name decides the Content-Type. *)
Definition named (final_slash : bool) (p : Posix.path) : string :=
  Posix.render
    (if final_slash then (removelast p ++ ["index.html"])%list else p).

End Send.

(** What [res.sendFile] reports to its callback: nothing, or an error,
    of which the program reads the message. *)
Inductive sent :=
| Sent (content : FS.bytes)
| NotSent (message : string) (announced : bool).

(** [res.sendFile(path, callback)] for an absolute path and no option.
    [send] refuses a path with a NUL character, a path with [..]
    between separators and a last component that starts with a dot, and
    answers a path with a final slash by its [index.html]; [res.sendFile]
    turns a directory into an error. *)
Definition sendFile (m : method) (root : FS.node) (p : Posix.path) : sent :=
  if negb (lacks Ascii.zero (Posix.render p)) then NotSent "Bad Request" false
  else if existsb Send.up p then NotSent "Forbidden" false
  else if Send.hidden (last p "") then NotSent "Not Found" false
  else
    match
      (if Posix.final_slash p then Send.index m root p else Send.file m root p)
    with
    | Send.Streamed content => Sent content
    | Send.Directory => NotSent "EISDIR, read" false
    | Send.Refused _ message announced => NotSent message announced
    end.

(* ================================================================== *)
(** * The process state                                                 *)
(* ================================================================== *)

(** A line of the console.  Where the program hands an error object to
    the console, the line shows the message of the error (for an error
    of an enumeration, its code and what it means); the stack that Node
    prints after it is left out. *)
Inductive line :=
| Log (text : string)
| Error (text : string).

(** What a handler can observe and change: the file system, the console,
    and the clock ([now] is the ISO-8601 text of the current instant,
    [uptime] the float [process.uptime()] returns). *)
Record World := MkWorld {
  fs : FS.node;
  console : list line;
  now : string;
  uptime : Z * Z
}.

(** ** Computations over the world *)

Definition IO (A : Type) : Type := World -> A * World.

Definition ret {A} (a : A) : IO A := fun w => (a, w).

Definition bind {A B} (c : IO A) (k : A -> IO B) : IO B :=
  fun w => let '(a, w') := c w in k a w'.

Declare Scope io_scope.
Delimit Scope io_scope with io.
Notation "x <- c ;; k" := (bind c (fun x => k))
  (at level 61, c at next level, right associativity) : io_scope.
Notation "c ;; k" := (bind c (fun _ => k))
  (at level 61, right associativity) : io_scope.
Local Open Scope io_scope.

Definition console_log (text : string) : IO unit :=
  fun w => (tt, MkWorld (fs w) (console w ++ [Log text]) (now w) (uptime w)).

Definition console_error (text : string) : IO unit :=
  fun w => (tt, MkWorld (fs w) (console w ++ [Error text]) (now w) (uptime w)).

Definition fs_access (p : Posix.path) : IO bool :=
  fun w => (FS.access (fs w) p, w).

Definition fs_sendFile (m : method) (p : Posix.path) : IO sent :=
  fun w => (sendFile m (fs w) p, w).

(** [xs.filter(keep)] for a predicate that may throw: the first exception
    ends the whole call. *)
Fixpoint filter_throwing {A} (keep : A -> FS.result bool) (xs : list A)
  : FS.result (list A) :=
  match xs with
  | [] => inr []
  | x :: r =>
      match keep x with
      | inl e => inl e
      | inr b =>
          match filter_throwing keep r with
          | inl e => inl e
          | inr r' => inr (if b then x :: r' else r')
          end
      end
  end.

(** The expression both enumerations start with,
    [fs.readdirSync(dir).filter(item => fs.statSync(path.join(dir, item)).isDirectory())]:
    the names in [dir] that lead to directories, or the exception thrown
    by the listing or by one of the [statSync] calls. *)
Definition directories (root : FS.node) (dir : Posix.path)
  : FS.result (list string) :=
  match FS.readdirSync root dir with
  | inl e => inl e
  | inr items =>
      filter_throwing
        (fun item => FS.statSync_isDirectory root (Posix.join dir [item]))
        items
  end.

Definition fs_directories (dir : Posix.path) : IO (FS.result (list string)) :=
  fun w => (directories (fs w) dir, w).

(* ================================================================== *)
(** * server.js                                                         *)
(* ================================================================== *)

(** The route parameters of [/:z/:x/:y.:format]. *)
Record params := Params {
  z : string;
  x : string;
  y : string;
  format : string
}.

(** What the static middleware does with a request: it answers, passes
    the request on, or passes on an error, of which the program reads
    the message, with the response as it stands. *)
Inductive outcome :=
| Served (res : response)
| Next
| Failed (message : string) (res : response).

Section Server.

(** [__dirname], the working directory of the process (where the relative
    ['public'] is resolved), and [process.env.PORT]. *)
Variable dirname : Posix.path.
Variable cwd : Posix.path.
Variable env_PORT : option string.

(** [const PORT = process.env.PORT || 3000] *)
Definition PORT : JS.value :=
  JS.or (match env_PORT with
         | Some s => JS.VString s
         | None => JS.VUndefined
         end)
        (JS.VNumber (JS.Int 3000)).

Definition tilesDir : Posix.path := Posix.join dirname ["tiles"].

(** ** The tile route *)

Definition types : JS.literal :=
  [ ("png", JS.VString "image/png");
    ("jpg", JS.VString "image/jpeg");
    ("jpeg", JS.VString "image/jpeg");
    ("webp", JS.VString "image/webp");
    ("pbf", JS.VString "application/x-protobuf") ].

(** [function getContentType(format)] *)
Definition getContentType (format : string) : JS.value :=
  JS.member types (JS.toLowerCase format).

(** The template [`${z}/${x}/${y}.${format}`]. *)
Definition tile_name (p : params) : string :=
  z p ++ "/" ++ x p ++ "/" ++ y p ++ "." ++ format p.

Definition tilePath (p : params) : Posix.path :=
  Posix.join dirname ["tiles"; z p; x p; y p ++ "." ++ format p].

(** [app.get('/:z/:x/:y.:format', (req, res) => ...)], which Express
    calls for GET and for HEAD; of the request the handler uses the
    parameters, and [res.sendFile] the method.  The callbacks of
    [fs.access] and [res.sendFile] run once each, in sequence. *)
Definition tileRoute (m : method) (p : params) (res : response)
  : IO response :=
  console_log ("Requesting tile: " ++ tile_name p) ;;
  console_log ("File path: " ++ Posix.render (tilePath p)) ;;
  found <- fs_access (tilePath p) ;;
  if negb found then
    console_log ("Tile not found: " ++ Posix.render (tilePath p)) ;;
    ret (send_json
           (JObj [ ("error", JStr "Tile not found");
                   ("path", JStr (tile_name p)) ])
           (set_status 404 res))
  else
    let contentType := getContentType (format p) in
    let res :=
      if JS.truthy contentType then setHeader "Content-Type" contentType res
      else res in
    let res :=
      setHeader "Cache-Control" (JS.VString "public, max-age=3600") res in
    sent <- fs_sendFile m (tilePath p) ;;
    let file := Send.named (Posix.final_slash (tilePath p)) (tilePath p) in
    match sent with
    | Sent content => ret (send_bytes content (announce file res))
    | NotSent message announced =>
        console_error ("Error sending file: " ++ message) ;;
        ret (send_json (JObj [ ("error", JStr "Error serving tile") ])
                       (set_status 500
                          (if announced then announce file res else res)))
    end.

(** The handler on a GET request. *)
Definition tileHandler (p : params) (res : response) : IO response :=
  tileRoute GET p res.

(** ** Zoom levels *)

(** [function getAvailableZoomLevels()] *)
Definition getAvailableZoomLevels : IO (list JS.number) :=
  listing <- fs_directories tilesDir ;;
  match listing with
  | inr dirs =>
      ret (JS.sort JS.sub
             (filter (fun level => negb (JS.isNaN level))
                     (map JS.parseInt dirs)))
  | inl err =>
      console_error ("Error reading tiles directory: " ++ FS.message err) ;;
      ret []
  end.

(** ** The introspection routes *)

(** [app.get('/', ...)] *)
Definition rootHandler (res : response) : IO response :=
  levels <- getAvailableZoomLevels ;;
  ret (send_json
         (JObj
            [ ("name", JStr "Local Tile Server");
              ("version", JStr "1.0.0");
              ("description", JStr "Serving tiles from tiles/18 directory");
              ("usage",
               JObj
                 [ ("tile_url",
                    JStr ("http://localhost:" ++ JS.show PORT
                          ++ "/{z}/{x}/{y}.{format}"));
                   ("example",
                    JStr ("http://localhost:" ++ JS.show PORT
                          ++ "/18/131072/131072.png"));
                   ("supported_formats",
                    JArr [JStr "png"; JStr "jpg"; JStr "jpeg"; JStr "webp"]) ]);
              ("available_zoom_levels", JArr (map json_of_number levels)) ])
         res).

(** [app.get('/health', ...)] *)
Definition healthHandler (res : response) : IO response :=
  fun w =>
    (send_json
       (JObj [ ("status", JStr "healthy");
               ("timestamp", JStr (now w));
               ("uptime", JFloat (fst (uptime w)) (snd (uptime w))) ])
       res, w).

(** The value the body of the [forEach] stores under a level. *)
Definition level_entry (listing : FS.result (list string)) : json :=
  match listing with
  | inr xDirs =>
      JObj [ ("x_directories", JNum (Z.of_nat (List.length xDirs)));
             ("sample_x_dirs", JArr (map JStr xDirs)) ]
  | inl _ => JObj [ ("error", JStr "Cannot read directory") ]
  end.

Definition levelDir (level : JS.number) : Posix.path :=
  Posix.join tilesDir [JS.toString level].

(** [info.available_levels.forEach(level => ...)], threading
    [info.structure]. *)
Fixpoint forEach_level (levels : list JS.number)
    (structure : list (string * json)) : IO (list (string * json)) :=
  match levels with
  | [] => ret structure
  | level :: rest =>
      listing <- fs_directories (levelDir level) ;;
      forEach_level rest
        (assign structure (JS.toString level) (level_entry listing))
  end.

(** [app.get('/tiles-info', ...)] *)
Definition tilesInfoHandler (res : response) : IO response :=
  levels <- getAvailableZoomLevels ;;
  structure <- forEach_level levels [] ;;
  ret (send_json
         (JObj [ ("tiles_directory", JStr (Posix.render tilesDir));
                 ("available_levels", JArr (map json_of_number levels));
                 ("structure", JObj structure) ])
         res).

(** ** The terminal middlewares *)

(** [app.use((err, req, res, next) => ...)]; of the error the program
    reads the message. *)
Definition errorHandler (message : string) (res : response) : IO response :=
  console_error ("Server error: " ++ message) ;;
  ret (send_json (JObj [ ("error", JStr "Internal server error");
                         ("message", JStr message) ])
                 (set_status 500 res)).

(** [app.use((req, res) => ...)] *)
Definition notFound (req : request) (res : response) : IO response :=
  ret (send_json
         (JObj [ ("error", JStr "Not found");
                 ("message", JStr ("Path " ++ url req ++ " not found")) ])
         (set_status 404 res)).

(** ** The framework: routes and middlewares

    What follows is Express's part of the program: how a route pattern
    matches a path and what becomes of the parameters, what [cors()] and
    [express.static('public')] do with their default options, and the
    order in which [app] consults the middlewares, which is the order of
    the [app.use] and [app.get] calls in the file. *)

(** A file name around its last dot. *)
Definition split_extension (name : string) : option (string * string) :=
  match rev (Posix.split "." name) with
  | ext :: (_ :: _) as before => Some (String.concat "." (rev before), ext)
  | _ => None
  end.

(** [/:z/:x/:y.:format] on the path as it was sent: three non-empty
    components, the last one with a non-empty name before its last dot
    and a non-empty extension after it; one trailing slash is
    tolerated.  The result is what the pattern captures. *)
Definition matchTile (path : string) : option params :=
  match Posix.split "/" path with
  | "" :: pz :: px :: name :: rest =>
      match rest, split_extension name with
      | ([] | [""]), Some (py, pf) =>
          if nonempty pz && nonempty px && nonempty py && nonempty pf
          then Some (Params pz px py pf) else None
      | _, _ => None
      end
  | _ => None
  end.

(** What Express makes of the captures: each goes through
    [decodeURIComponent], in the order of the pattern, and the first
    that cannot be decoded is the error. *)
Definition decodeParams (raw : params) : string + params :=
  match JS.decodeURIComponent (z raw) with
  | None => inl (z raw)
  | Some pz =>
      match JS.decodeURIComponent (x raw) with
      | None => inl (x raw)
      | Some px =>
          match JS.decodeURIComponent (y raw) with
          | None => inl (y raw)
          | Some py =>
              match JS.decodeURIComponent (format raw) with
              | None => inl (format raw)
              | Some pf => inr (Params pz px py pf)
              end
          end
      end
  end.

(** The message of the error for a capture that cannot be decoded. *)
Definition decode_failure (capture : string) : string :=
  "Failed to decode param '" ++ capture ++ "'".

(** A literal route such as [/health]: letter case and one trailing
    slash are ignored. *)
Definition matchLiteral (route path : string) : bool :=
  let p := JS.toLowerCase path in
  (p =? route)%string || (p =? route ++ "/")%string.

Definition handles_get (m : method) : bool :=
  match m with GET | HEAD => true | _ => false end.

Definition publicDir : Posix.path := Posix.join cwd ["public"].

(** Whether a relative path leaves the directory it starts in; [depth]
    counts the components entered so far. *)
Fixpoint climbs (depth : nat) (parts : list string) : bool :=
  match parts with
  | [] => false
  | p :: r =>
      if (p =? "")%string || (p =? ".")%string then climbs depth r
      else if (p =? "..")%string then
        match depth with
        | O => true
        | S d => climbs d r
        end
      else climbs (S depth) r
  end.

(** Several slashes at the start of a path count as one. *)
Fixpoint drop_slashes (s : string) : string :=
  match s with
  | String "/" r => drop_slashes r
  | _ => s
  end.

Definition collapse (s : string) : string :=
  match s with
  | String "/" (String "/" r) => String "/" (drop_slashes r)
  | _ => s
  end.

Definition hex (n : Z) : ascii :=
  match String.get (Z.to_nat n) "0123456789ABCDEF" with
  | Some c => c
  | None => "0"%char
  end.

Definition escape (c : ascii) : string :=
  String "%" (String (hex (JS.code c / 16)) (String (hex (JS.code c mod 16)) "")).

(** The characters [encodeUrl] leaves as they are. *)
Definition kept (c : ascii) : bool :=
  JS.is_byte 33 c || JS.between 35 36 c || JS.between 38 59 c
  || JS.is_byte 61 c || JS.between 63 91 c || JS.is_byte 93 c
  || JS.is_byte 95 c || JS.between 97 122 c || JS.is_byte 126 c.

Definition is_hex (c : ascii) : bool :=
  match JS.digit 16 c with Some _ => true | None => false end.

(** [encodeUrl]: what is not fit for a URL is escaped, byte by byte; an
    escape that is there stays, and a percent sign that starts none is
    escaped. *)
Fixpoint encodeUrl (s : string) : string :=
  match s with
  | EmptyString => EmptyString
  | String c r =>
      if JS.is_byte 37 c then
        match r with
        | String h (String l _) =>
            if is_hex h && is_hex l then String c (encodeUrl r)
            else "%25" ++ encodeUrl r
        | _ => "%25" ++ encodeUrl r
        end
      else if kept c then String c (encodeUrl r)
      else escape c ++ encodeUrl r
  end.

(** The redirection of [express.static] for a directory. *)
Definition redirect (location : string) (res : response) : response :=
  let res := setHeader "Content-Type" (JS.VString "text/html; charset=UTF-8") res in
  let res := setHeader "Content-Security-Policy"
               (JS.VString "default-src 'none'") res in
  let res := setHeader "X-Content-Type-Options" (JS.VString "nosniff") res in
  let res := setHeader "Location" (JS.VString location) res in
  Response 301 (headers res) (Redirecting location) (content_type res).

(** [express.static('public')] with its default options, for GET and
    HEAD.  The path is decoded first.  A path that cannot be decoded,
    that holds a NUL character, that leaves the public directory or
    whose last component starts with a dot is passed on.  A path sent
    with a final slash is answered by the [index.html] below it, when
    there is one.  Otherwise a regular file is sent, and a directory is
    answered by a redirection to the same path with a slash.  Whatever
    is missing is passed on; what cannot be searched or opened is passed
    on as an error. *)
Definition serveStatic (req : request) (res : response) : IO outcome :=
  fun w =>
    if negb (handles_get (verb req)) then (Next, w)
    else
      match JS.decodeURIComponent (url req) with
      | None => (Next, w)
      | Some path =>
          let parts := Posix.join [] [path] in
          if negb (lacks Ascii.zero path)
             || climbs 0 (Posix.split "/" path)
             || existsb Send.up parts
             || Send.hidden (last parts "")
          then (Next, w)
          else
            let target := Posix.join publicDir [path] in
            let slash := ends_with_slash (url req) in
            let file := Send.named slash target in
            match
              (if slash then Send.index (verb req) (fs w) target
               else Send.file (verb req) (fs w) target)
            with
            | Send.Streamed content =>
                (Served (send_bytes content (announce file res)), w)
            | Send.Directory =>
                (Served (redirect (encodeUrl (collapse (url req ++ "/"))) res),
                 w)
            | Send.Refused code message announced =>
                if code <? 500 then (Next, w)
                else
                  (Failed message
                     (if announced then announce file res else res), w)
            end
      end.

(** What [cors()] adds to every response. *)
Definition cors (res : response) : response :=
  setHeader "Access-Control-Allow-Origin" (JS.VString "*") res.

(** The answer of [cors()] to a preflight request. *)
Definition preflight (res : response) : response :=
  set_status 204
    (setHeader "Content-Length" (JS.VString "0")
       (setHeader "Vary" (JS.VString "Access-Control-Request-Headers")
          (setHeader "Access-Control-Allow-Methods"
             (JS.VString "GET,HEAD,PUT,PATCH,POST,DELETE") (cors res)))).

(** The routes, in the order [app.get] registers them, and the two
    terminal middlewares.  Express matches the path of a route and
    decodes what it captures before it looks at the method, and an
    error of the decoding goes to the error middleware. *)
Definition routes (req : request) (res : response) : IO response :=
  match matchTile (url req) with
  | Some raw =>
      match decodeParams raw with
      | inl capture => errorHandler (decode_failure capture) res
      | inr p =>
          if handles_get (verb req) then tileRoute (verb req) p res
          else notFound req res
      end
  | None =>
      if negb (handles_get (verb req)) then notFound req res
      else if (url req =? "/")%string then rootHandler res
      else if matchLiteral "/health" (url req) then healthHandler res
      else if matchLiteral "/tiles-info" (url req) then tilesInfoHandler res
      else notFound req res
  end.

(** The application: [cors()], then [express.static('public')], then the
    routes and the terminal middlewares. *)
Definition app (req : request) : IO response :=
  res <- match verb req with
         | OPTIONS => ret (preflight fresh)
         | _ =>
             served <- serveStatic req (cors fresh) ;;
             match served with
             | Served res => ret res
             | Failed message res => errorHandler message res
             | Next => routes req (cors fresh)
             end
         end ;;
  ret (for_method (verb req) res).

End Server.

(* ================================================================== *)
(** * Reference notions used in the statements                          *)
(* ================================================================== *)

(** The format table as the documentation prints it:
    png -> image/png, jpg | jpeg -> image/jpeg, webp -> image/webp,
    pbf -> application/x-protobuf. *)
Definition documented_mime (ext : string) : option string :=
  if (ext =? "png")%string then Some "image/png"
  else if (ext =? "jpg")%string || (ext =? "jpeg")%string then Some "image/jpeg"
  else if (ext =? "webp")%string then Some "image/webp"
  else if (ext =? "pbf")%string then Some "application/x-protobuf"
  else None.

(** Whether the entry [item] of [dir] is a directory, as [statSync]
    reports it. *)
Definition is_directory (root : FS.node) (dir : Posix.path) (item : string)
  : bool :=
  match FS.statSync_isDirectory root (Posix.join dir [item]) with
  | inr true => true
  | _ => false
  end.

(** Whether [statSync] answers at all for that entry. *)
Definition stat_succeeds (root : FS.node) (dir : Posix.path) (item : string)
  : Prop :=
  exists b, FS.statSync_isDirectory root (Posix.join dir [item]) = inr b.

Definition is_number (v : JS.number) : bool := negb (JS.isNaN v).

(** The order of the numbers: the integers between the two infinities;
    NaN is related to nothing. *)
Definition number_le (a b : JS.number) : Prop :=
  match a, b with
  | JS.Int m, JS.Int n => m <= n
  | JS.Infinity true, (JS.Int _ | JS.Infinity _) => True
  | (JS.Int _ | JS.Infinity _), JS.Infinity false => True
  | _, _ => False
  end.

(** An integer that a double holds exactly, as every integer below 2^53
    in absolute value is. *)
Definition safe_integer (n : Z) : Prop := Z.abs n < 2 ^ 53.

(** A computation is a reader of the file system when it never changes
    it and its value depends on nothing else. *)
Definition reads_only {A} (c : IO A) : Prop :=
  (forall w, fs (snd (c w)) = fs w) /\
  (forall w w', fs w = fs w' -> fst (c w) = fst (c w')).

(** A computation only appends to the console when it leaves the file
    system and the clock as they are and keeps the lines already there. *)
Definition appends_only {A} (c : IO A) : Prop :=
  forall w, exists lines,
    snd (c w) = MkWorld (fs w) (console w ++ lines) (now w) (uptime w).

(** What [/:z/:x/:y.:format] can capture: nothing empty, nothing with a
    slash, and no dot in the format. *)
Definition routable (p : params) : bool :=
  nonempty (z p) && nonempty (x p) && nonempty (y p) && nonempty (format p)
  && lacks "/" (z p) && lacks "/" (x p) && lacks "/" (y p)
  && lacks "/" (format p) && lacks "." (format p).

(** A path that [send] takes for the file it names: no NUL character,
    no [..] between backslashes, no final slash, and a last component
    that does not start with a dot. *)
Definition sendable (p : Posix.path) : bool :=
  lacks Ascii.zero (Posix.render p)
  && negb (existsb Send.up p)
  && negb (Send.hidden (last p ""))
  && negb (Posix.final_slash p).

(** A decoded path that [express.static] looks up below the public
    directory: no NUL character, no way out of the directory, and a last
    component that does not start with a dot. *)
Definition lookable (path : string) : bool :=
  lacks Ascii.zero path
  && negb (climbs 0 (Posix.split "/" path))
  && negb (existsb Send.up (Posix.join [] [path]))
  && negb (Send.hidden (last (Posix.join [] [path]) "")).

(** Parameters without a NUL character.  What Node's [fs] functions do
    with a path that holds one depends on the release (recent ones throw
    before they look at the file system) and is not described: the
    statements about whole requests leave such parameters out. *)
Definition nul_free (p : params) : bool := lacks Ascii.zero (tile_name p).

(* ================================================================== *)
(** * Sample deployments                                                *)
(* ================================================================== *)

Module Sample.

Definition dirname : Posix.path := ["srv"; "tileserver"].

(** A one-pixel transparent PNG would do; four bytes of its signature
    are enough to tell contents apart. *)
Definition png : FS.bytes := [Byte.x89; Byte.x50; Byte.x4e; Byte.x47].
Definition other : FS.bytes := [Byte.x00; Byte.x01].

Definition folder (es : list (string * FS.node)) : FS.node :=
  FS.Dir es true true.

Definition deployment (tiles public : list (string * FS.node)) : FS.node :=
  folder [ ("srv", folder [ ("tileserver",
             folder [ ("tiles", folder tiles); ("public", folder public) ]) ]) ].

Definition world (root : FS.node) : World :=
  MkWorld root [] "2026-11-02T00:00:00.000Z" (3, -1).

(** Levels 17, 18, abc and 20, listed out of order, and a stray file. *)
Definition pyramid : list (string * FS.node) :=
  [ ("20", folder []);
    ("17", folder [ ("65536", folder []); ("65537", folder []) ]);
    ("abc", folder []);
    ("notes.txt", FS.File [] true);
    ("18", folder [ ("131072", folder
                       [ ("131072.png", FS.File png true);
                         ("131072.xyz", FS.File png true);
                         ("131072.PNG", FS.File other true);
                         ("131072.constructor", FS.File png true);
                         ("locked.png", FS.File png false);
                         ("locked.xyz", FS.File png false);
                         (".hidden.png", FS.File png true);
                         (".hidden.xyz", FS.File png true) ]);
                    ("readme", FS.File [] true) ]) ].

Definition plain : World := world (deployment pyramid []).

(** The same tiles, and a public directory that holds a file at a path
    of the tile form. *)
Definition shadowed : World :=
  world (deployment pyramid
           [ ("18", folder [ ("131072", folder
                               [ ("131072.png", FS.File other true) ]) ]) ]).


(** A deployment without a tiles directory. *)
Definition bare : World := world (folder [ ("srv", folder [ ("tileserver", folder []) ]) ]).

(** A tiles root that holds a link to nowhere next to level 17. *)
Definition broken : World :=
  world (deployment [ ("17", folder []); ("old", FS.Dangling) ] []).

Definition tile (f : string) : params := Params "18" "131072" "131072" f.
Definition locked (f : string) : params := Params "18" "131072" "locked" f.
Definition dotted (f : string) : params := Params "18" "131072" ".hidden" f.

End Sample.

(** Further deployments, around the same pyramid. *)
Module Scenario.

(** A directory beside the tiles root, with a file that is no tile. *)
Definition exposed : World :=
  Sample.world
    (Sample.folder
       [ ("srv", Sample.folder
           [ ("tileserver", Sample.folder
               [ ("tiles", Sample.folder Sample.pyramid);
                 ("public", Sample.folder []);
                 ("config", Sample.folder
                    [ ("secrets.json", FS.File Sample.other true) ]) ]) ]) ]).

(** The pyramid as another system would list it. *)
Definition reordered : World :=
  Sample.world (Sample.deployment (rev Sample.pyramid) []).

(** Three directories whose names all read as 18, and one as 7. *)
Definition doubled : World :=
  Sample.world
    (Sample.deployment
       [ ("18abc", Sample.folder []);
         ("7", Sample.folder [ ("1", Sample.folder []) ]);
         ("018", Sample.folder []);
         ("18", Sample.folder [ ("5", Sample.folder []);
                                ("6", Sample.folder []) ]) ] []).

(** A public file at a tile path that cannot be opened, and one whose
    name has a space. *)
Definition jammed : World :=
  Sample.world
    (Sample.deployment Sample.pyramid
       [ ("18", Sample.folder
           [ ("131072", Sample.folder
               [ ("131072.png", FS.File Sample.other false) ]) ]);
         ("a b.txt", FS.File Sample.other false) ]).

(** A level whose directory can be listed but not searched. *)
Definition sealed : World :=
  Sample.world
    (Sample.deployment
       [ ("18", FS.Dir [ ("0", Sample.folder
                            [ ("0.png", FS.File Sample.png true) ]) ]
                  true false) ] []).



(** Directories with long names: 2^53 + 1 and 10^21. *)
Definition vast : World :=
  Sample.world
    (Sample.deployment
       [ ("9007199254740993", Sample.folder []);
         ("1000000000000000000000", Sample.folder []) ] []).

End Scenario.

(* ================================================================== *)
(** * Properties                                                        *)
(* ================================================================== *)

#[local] Arguments String.eqb : simpl never.

(** ** Strings and headers *)

Lemma lower_byte_idempotent (b : bool) (c : ascii) :
  JS.lower_byte b (JS.lower_byte b c) = JS.lower_byte b c.
Proof.
  destruct b; destruct c as [[] [] [] [] [] [] [] []]; reflexivity.
Qed.

(** Lower-casing neither makes nor unmakes the byte that announces a
    Latin capital. *)
Lemma lower_byte_lead (b : bool) (c : ascii) :
  JS.is_byte 195 (JS.lower_byte b c) = JS.is_byte 195 c.
Proof.
  destruct b; destruct c as [[] [] [] [] [] [] [] []]; reflexivity.
Qed.

Lemma lower_from_idempotent (b : bool) (s : string) :
  JS.lower_from b (JS.lower_from b s) = JS.lower_from b s.
Proof.
  revert b. induction s as [|c r IH]; intros b; simpl.
  - reflexivity.
  - now rewrite lower_byte_idempotent, lower_byte_lead, IH.
Qed.

Lemma toLowerCase_idempotent (s : string) :
  JS.toLowerCase (JS.toLowerCase s) = JS.toLowerCase s.
Proof. apply lower_from_idempotent. Qed.

(** A lower-cased string is never a name that has a capital in it. *)
Lemma lowered_differs (s k : string) :
  JS.toLowerCase k <> k -> JS.toLowerCase s <> k.
Proof.
  intros Hk Hs. apply Hk. rewrite <- Hs. apply toLowerCase_idempotent.
Qed.

(** ** Doubles *)

Lemma round53_small (a : Z) : 0 <= a < 2 ^ 53 -> JS.round53 a = a.
Proof.
  intros [H0 H]. unfold JS.round53.
  assert (Z.log2 a < 53) as Hl.
  { destruct (Z.eq_dec a 0) as [->|N]; [reflexivity|].
    apply Z.log2_lt_pow2; lia. }
  destruct (Z.leb_spec (Z.log2 a + 1 - 53) 0); [reflexivity|lia].
Qed.

Lemma round53_positive (a : Z) : 0 < a -> 0 < JS.round53 a.
Proof.
  intros Ha. unfold JS.round53.
  destruct (Z.leb_spec (Z.log2 a + 1 - 53) 0) as [_|Hd]; [exact Ha|].
  set (drop := Z.log2 a + 1 - 53) in *.
  assert (0 < Z.shiftr a drop) as Hq.
  { rewrite Z.shiftr_div_pow2 by lia.
    apply Z.div_str_pos. split; [apply Z.pow_pos_nonneg; lia|].
    transitivity (2 ^ Z.log2 a).
    - apply Z.pow_le_mono_r; lia.
    - apply Z.log2_spec. exact Ha. }
  rewrite Z.shiftl_mul_pow2 by lia.
  apply Z.mul_pos_pos; [|apply Z.pow_pos_nonneg; lia].
  destruct (_ || _); lia.
Qed.

Lemma of_integer_safe (n : Z) : safe_integer n -> JS.of_integer n = JS.Int n.
Proof.
  unfold safe_integer, JS.of_integer. intros H.
  rewrite round53_small by lia.
  assert (2 ^ 53 < 2 ^ 1024) by (apply Z.pow_lt_mono_r; lia).
  destruct (Z.leb_spec (2 ^ 1024) (Z.abs n)); [lia|].
  now rewrite Z.mul_comm, Z.abs_sgn.
Qed.

(** The sign of a difference survives the rounding. *)
Lemma positive_of_integer (d : Z) :
  JS.positive (JS.of_integer d) = (0 <? d).
Proof.
  unfold JS.of_integer.
  destruct (Z.leb_spec (2 ^ 1024) (JS.round53 (Z.abs d))) as [Hbig|_]; simpl.
  - destruct (Z.ltb_spec d 0), (Z.ltb_spec 0 d); try reflexivity; try lia.
    assert (d = 0) as -> by lia. simpl in Hbig.
    assert (0 < 2 ^ 1024) by (apply Z.pow_pos_nonneg; lia).
    vm_compute in Hbig. now destruct Hbig.
  - destruct (Z.ltb_spec 0 (Z.sgn d * JS.round53 (Z.abs d))) as [H|H],
             (Z.ltb_spec 0 d) as [Hd|Hd]; try reflexivity; exfalso.
    + destruct (Z.eq_dec d 0) as [->|N]; [simpl in H; lia|].
      pose proof (round53_positive (Z.abs d) ltac:(lia)).
      assert (Z.sgn d = -1) as E by (apply Z.sgn_neg; lia).
      rewrite E in H. lia.
    + pose proof (round53_positive (Z.abs d) ltac:(lia)).
      assert (Z.sgn d = 1) as E by (apply Z.sgn_pos; lia).
      rewrite E in H. lia.
Qed.

(** ** Decimal names

    [parseInt] reads back what [toString] prints: a level is found again
    from the name of its own directory, as long as it is an integer that
    a double holds exactly. *)

Ltac eval_digit :=
  match goal with
  | |- context [JS.digit 10 ?c] =>
      let v := eval vm_compute in (JS.digit 10 c) in
      change (JS.digit 10 c) with v; cbv iota beta
  end.

Lemma digits_acc (d : Decimal.uint) (acc : positive) :
  JS.digits 10 (Some (Z.pos acc)) (NilEmpty.string_of_uint d)
  = Some (Z.pos (Pos.of_uint_acc d acc)).
Proof.
  revert acc.
  induction d; intros acc;
    cbn [NilEmpty.string_of_uint JS.digits Pos.of_uint_acc];
    [reflexivity | ..];
    eval_digit; rewrite <- IHd; do 2 f_equal; lia.
Qed.

Lemma digits_zero (d : Decimal.uint) :
  JS.digits 10 (Some 0) (NilEmpty.string_of_uint d)
  = Some (Z.of_N (Pos.of_uint d)).
Proof.
  induction d;
    cbn [NilEmpty.string_of_uint JS.digits Pos.of_uint];
    [reflexivity | ..]; eval_digit;
    [exact IHd | apply digits_acc ..].
Qed.

(** A text that starts with an ASCII character other than a space has
    no white space to drop. *)
Lemma trimStart_keeps (c : ascii) (r : string) :
  JS.is_space1 c = false -> JS.code c < 128 ->
  JS.trimStart (String c r) = String c r.
Proof.
  intros Hs Hc.
  assert (forall n, 128 <= n -> JS.is_byte n c = false) as Hn
    by (intros n Hge; unfold JS.is_byte; apply Z.eqb_neq; lia).
  cbn [JS.trimStart]. rewrite Hs.
  destruct r as [|c2 [|c3 r3]]; try reflexivity;
    unfold JS.is_space2, JS.is_space3;
    rewrite !Hn by lia; reflexivity.
Qed.

Lemma trimStart_decimal (d : Decimal.uint) :
  JS.trimStart (NilEmpty.string_of_uint d) = NilEmpty.string_of_uint d.
Proof.
  destruct d; [reflexivity|..]; cbn [NilEmpty.string_of_uint];
    apply trimStart_keeps; vm_compute; reflexivity.
Qed.

Lemma parseInt_decimal (d : Decimal.uint) :
  d <> Decimal.Nil ->
  JS.parseInt (NilEmpty.string_of_uint d)
  = JS.of_integer (Z.of_N (Pos.of_uint d)) /\
  JS.parseInt (String "-" (NilEmpty.string_of_uint d))
  = JS.of_integer (- Z.of_N (Pos.of_uint d)).
Proof.
  intros Hd. unfold JS.parseInt.
  rewrite (trimStart_keeps "-") by (vm_compute; reflexivity).
  rewrite trimStart_decimal.
  destruct d as [|d|d|d|d|d|d|d|d|d|d]; [contradiction| ..].
  all: try (cbn; repeat eval_digit; rewrite digits_acc; split; reflexivity).
  destruct d as [|d|d|d|d|d|d|d|d|d|d].
  all: cbn; repeat eval_digit; cbn; rewrite ?digits_acc, ?digits_zero;
    split; try reflexivity; destruct (Z.of_N (Pos.of_uint d)); reflexivity.
Qed.

Lemma toString_safe (n : Z) :
  safe_integer n ->
  JS.toString (JS.Int n)
  = if n <? 0 then "-" ++ JS.decimal (Z.abs n) else JS.decimal (Z.abs n).
Proof.
  unfold safe_integer, JS.toString, JS.shortest. intros H.
  destruct (Z.ltb_spec (Z.abs n) (2 ^ 53)); [|lia].
  assert (2 ^ 53 < 10 ^ 21) by (vm_compute; reflexivity).
  destruct (Z.ltb_spec (Z.abs n) (10 ^ 21)); [reflexivity|lia].
Qed.

Lemma parseInt_toString (n : Z) :
  safe_integer n -> JS.parseInt (JS.toString (JS.Int n)) = JS.Int n.
Proof.
  intros Hs. rewrite toString_safe by exact Hs.
  rewrite <- (of_integer_safe n Hs).
  destruct n as [|p|p]; [reflexivity| |]; simpl;
    pose proof (Unsigned.to_uint_nonnil p) as Hn;
    pose proof (Unsigned.of_to p) as Hp;
    destruct (parseInt_decimal _ Hn) as [H1 H2];
    unfold JS.decimal, NilZero.string_of_int, NilZero.string_of_uint; simpl;
    destruct (Pos.to_uint p) eqn:E; try contradiction;
    rewrite ?H1, ?H2, Hp; reflexivity.
Qed.

(** What [parseInt] makes of a few directory names. *)
Example parseInt_names :
  map JS.parseInt ["17"; "018"; "18abc"; " 19"; "0x14"; "-1"; "abc"; ""; "x20";
                   "9007199254740993"]
  = [JS.Int 17; JS.Int 18; JS.Int 18; JS.Int 19; JS.Int 20; JS.Int (-1);
     JS.NaN; JS.NaN; JS.NaN; JS.Int 9007199254740992].
Proof. reflexivity. Qed.

(** What [toString] makes of a few numbers. *)
Example toString_names :
  map JS.toString
      [JS.Int 17; JS.Int (-1); JS.Int (2 ^ 60); JS.Int (10 ^ 21);
       JS.Int (2 ^ 70); JS.Infinity false; JS.NaN]
  = ["17"; "-1"; "1152921504606847000"; "1e+21"; "1.1805916207174113e+21";
     "Infinity"; "NaN"].
Proof. reflexivity. Qed.

(** ** Percent escapes *)

Lemma unescape_plain (s : string) :
  lacks "%" s = true ->
  JS.unescape s = Some (map JS.Plain (list_ascii_of_string s)).
Proof.
  induction s as [|c r IH]; simpl; [reflexivity|].
  intros H. apply andb_prop in H. destruct H as [Hc Hr].
  rewrite (IH Hr).
  destruct (Ascii.eqb_spec c "%") as [->|N]; [discriminate|].
  destruct c as [[] [] [] [] [] [] [] []]; try reflexivity.
  now destruct N.
Qed.

Lemma assemble_plain (s : string) :
  JS.assemble (map JS.Plain (list_ascii_of_string s)) = Some s.
Proof.
  induction s as [|c r IH]; simpl; [reflexivity|]. now rewrite IH.
Qed.

(** A text without a percent sign decodes to itself. *)
Lemma decodeURIComponent_plain (s : string) :
  lacks "%" s = true -> JS.decodeURIComponent s = Some s.
Proof.
  intros H. unfold JS.decodeURIComponent.
  rewrite (unescape_plain s H). apply assemble_plain.
Qed.

Example decodeURIComponent_names :
  map JS.decodeURIComponent ["a%20b"; "%2F"; "%2e%2E"; "%zz"; "%"; "%E9"; "%C3%A9"]
  = [Some "a b"; Some "/"; Some ".."; None; None; None;
     Some (String (ascii_of_nat 195) (String (ascii_of_nat 169) ""))].
Proof. reflexivity. Qed.

(** ** Splitting and gluing *)

Lemma append_empty_r (s : string) : s ++ "" = s.
Proof. induction s as [|c r IH]; simpl; [reflexivity|now rewrite IH]. Qed.

Lemma append_associative (a b c : string) : (a ++ b) ++ c = a ++ (b ++ c).
Proof. induction a as [|x r IH]; simpl; [reflexivity|now rewrite IH]. Qed.

Lemma lacks_append (c : ascii) (a b : string) :
  lacks c (a ++ b) = lacks c a && lacks c b.
Proof.
  induction a as [|x r IH]; simpl; [reflexivity|].
  rewrite IH. now rewrite andb_assoc.
Qed.

Lemma split_aux_nonempty (sep : ascii) (cur s : string) :
  Posix.split_aux sep cur s <> [].
Proof.
  revert cur. induction s as [|c r IH]; intros cur; simpl; [discriminate|].
  destruct (Ascii.eqb c sep); [discriminate|apply IH].
Qed.

Lemma concat_cons (sep x : string) (l : list string) :
  l <> [] -> String.concat sep (x :: l) = x ++ sep ++ String.concat sep l.
Proof. destruct l; [contradiction|reflexivity]. Qed.

(** Gluing the pieces back with the separator gives the string. *)
Lemma concat_split_aux (sep : ascii) (cur s : string) :
  String.concat (String sep "") (Posix.split_aux sep cur s) = cur ++ s.
Proof.
  revert cur. induction s as [|c r IH]; intros cur; simpl.
  - now rewrite append_empty_r.
  - destruct (Ascii.eqb_spec c sep) as [->|N].
    + rewrite concat_cons by apply split_aux_nonempty.
      now rewrite IH.
    + rewrite IH, append_associative. reflexivity.
Qed.

Lemma concat_split (sep : ascii) (s : string) :
  String.concat (String sep "") (Posix.split sep s) = s.
Proof. apply (concat_split_aux sep "" s). Qed.

(** No piece holds the separator. *)
Lemma split_aux_lacks (sep : ascii) (cur s piece : string) :
  lacks sep cur = true ->
  In piece (Posix.split_aux sep cur s) -> lacks sep piece = true.
Proof.
  revert cur. induction s as [|c r IH]; intros cur Hc; simpl.
  - now intros [<-|[]].
  - destruct (Ascii.eqb_spec c sep) as [->|N].
    + intros [<-|Hin]; [exact Hc|]. now apply (IH "").
    + apply IH. rewrite lacks_append, Hc; simpl.
      destruct (Ascii.eqb_spec c sep); [contradiction|reflexivity].
Qed.

Lemma split_lacks (sep : ascii) (s piece : string) :
  In piece (Posix.split sep s) -> lacks sep piece = true.
Proof. now apply split_aux_lacks. Qed.

(** A string without the separator is one piece. *)
Lemma split_aux_whole (sep : ascii) (cur s : string) :
  lacks sep s = true -> Posix.split_aux sep cur s = [cur ++ s].
Proof.
  revert cur. induction s as [|c r IH]; intros cur Hs; simpl in *.
  - now rewrite append_empty_r.
  - apply andb_prop in Hs. destruct Hs as [Hc Hr].
    destruct (Ascii.eqb c sep); [discriminate|].
    now rewrite IH, append_associative.
Qed.

(** Splitting goes through a separator. *)
Lemma split_aux_append (sep : ascii) (cur a b : string) :
  Posix.split_aux sep cur (a ++ String sep b)
  = (Posix.split_aux sep cur a ++ Posix.split sep b)%list.
Proof.
  revert cur. induction a as [|c r IH]; intros cur; simpl.
  - now rewrite Ascii.eqb_refl.
  - destruct (Ascii.eqb c sep); [|apply IH].
    simpl. f_equal. apply IH.
Qed.

Lemma concat_snoc (sep : string) (l : list string) (e : string) :
  l <> [] ->
  String.concat sep (l ++ [e]) = String.concat sep l ++ sep ++ e.
Proof.
  induction l as [|x r IH]; intros Hl; [contradiction|].
  destruct r as [|x' r'].
  - reflexivity.
  - change (String.concat sep (x :: (x' :: r') ++ [e])%list
            = (x ++ sep ++ String.concat sep (x' :: r')) ++ sep ++ e).
    rewrite concat_cons by (destruct r'; discriminate).
    rewrite IH by discriminate.
    now rewrite !append_associative.
Qed.

Lemma split_extension_sound (name py pf : string) :
  split_extension name = Some (py, pf) ->
  name = py ++ "." ++ pf /\ lacks "." pf = true.
Proof.
  unfold split_extension. intros H.
  pose proof (concat_split "." name) as Hc.
  pose proof (split_lacks "." name) as Hl.
  rewrite <- (rev_involutive (Posix.split "." name)) in Hc, Hl.
  destruct (rev (Posix.split "." name)) as [|ext [|b before]];
    try discriminate.
  injection H as <- <-. split.
  - rewrite <- Hc at 1. simpl rev.
    rewrite concat_snoc; [reflexivity|].
    destruct (rev before); discriminate.
  - apply Hl. simpl. apply in_or_app. right. now left.
Qed.

Lemma split_extension_complete (py pf : string) :
  lacks "." pf = true ->
  split_extension (py ++ "." ++ pf) = Some (py, pf).
Proof.
  intros Hf. unfold split_extension, Posix.split.
  change (py ++ "." ++ pf) with (py ++ String "." pf).
  rewrite split_aux_append, rev_app_distr.
  unfold Posix.split. rewrite (split_aux_whole "." "" pf Hf). simpl.
  pose proof (split_aux_nonempty "." "" py) as Hn.
  pose proof (concat_split "." py) as Hc. unfold Posix.split in Hc.
  destruct (rev (Posix.split_aux "." "" py)) as [|b before] eqn:E.
  - apply (f_equal (@rev string)) in E. rewrite rev_involutive in E.
    contradiction.
  - rewrite <- E, rev_involutive, Hc. reflexivity.
Qed.

(** ** Which paths a route matches *)

Lemma lower_byte_slash (b : bool) (c : ascii) :
  Ascii.eqb (JS.lower_byte b c) "/" = Ascii.eqb c "/".
Proof. destruct b; destruct c as [[] [] [] [] [] [] [] []]; reflexivity. Qed.

(** Lower-casing keeps the number of components of a path. *)
Lemma split_length_lower (b : bool) (cur cur' s : string) :
  List.length (Posix.split_aux "/" cur (JS.lower_from b s))
  = List.length (Posix.split_aux "/" cur' s).
Proof.
  revert b cur cur'. induction s as [|c r IH]; intros b cur cur'; simpl.
  - reflexivity.
  - rewrite lower_byte_slash.
    destruct (Ascii.eqb c "/"); simpl; [f_equal|]; apply IH.
Qed.

Lemma matchTile_components (path : string) (p : params) :
  matchTile path = Some p ->
  (4 <= List.length (Posix.split "/" path))%nat.
Proof.
  unfold matchTile.
  destruct (Posix.split "/" path) as [|a [|pz [|px [|name rest]]]];
    try discriminate; try (destruct a; discriminate).
  intros _. simpl. lia.
Qed.

Lemma matchLiteral_components (route path : string) :
  matchLiteral route path = true ->
  List.length (Posix.split "/" path) = List.length (Posix.split "/" route) \/
  List.length (Posix.split "/" path)
    = List.length (Posix.split "/" (route ++ "/")).
Proof.
  unfold matchLiteral. intros H. apply orb_prop in H.
  unfold Posix.split, JS.toLowerCase in *.
  rewrite <- (split_length_lower false "" "" path).
  destruct H as [H|H]; apply String.eqb_eq in H; rewrite H; auto.
Qed.

(** A path that a literal route with one component matches is not of
    the tile form. *)
Lemma literal_not_tile (route path : string) :
  (List.length (Posix.split "/" (route ++ "/")) < 4)%nat ->
  (List.length (Posix.split "/" route) < 4)%nat ->
  matchLiteral route path = true -> matchTile path = None.
Proof.
  intros H1 H2 H. destruct (matchTile path) as [p|] eqn:E; [|reflexivity].
  apply matchTile_components in E.
  apply matchLiteral_components in H. destruct H as [H|H]; lia.
Qed.


(** ** Decoding what a route captures *)

Lemma decodeParams_plain (p : params) :
  lacks "%" (tile_name p) = true -> decodeParams p = inr p.
Proof.
  unfold tile_name. rewrite !lacks_append. intros H.
  repeat (apply andb_prop in H; destruct H as [? H]).
  unfold decodeParams.
  rewrite !decodeURIComponent_plain by assumption. now destruct p.
Qed.

(** A path the tile route matches is a slash followed by what the
    template makes of the captures, with at most one more slash. *)
Lemma matchTile_sound (path : string) (p : params) :
  matchTile path = Some p ->
  routable p = true /\
  (path = "/" ++ tile_name p \/ path = ("/" ++ tile_name p) ++ "/").
Proof.
  intros H. unfold matchTile in H.
  pose proof (concat_split "/" path) as Hc.
  pose proof (split_lacks "/" path) as Hl.
  destruct (Posix.split "/" path) as [|a [|pz [|px [|name rest]]]];
    try discriminate; try (destruct a; discriminate).
  destruct a; [|discriminate].
  destruct (split_extension name) as [[py pf]|] eqn:Ex;
    [|destruct rest as [|r0 [|r1 r2]]; try discriminate;
      destruct r0; discriminate].
  destruct (split_extension_sound _ _ _ Ex) as [En Hdot].
  assert (lacks "/" pz = true) as Hz by (apply Hl; simpl; auto).
  assert (lacks "/" px = true) as Hx by (apply Hl; simpl; auto).
  assert (lacks "/" name = true) as Hn by (apply Hl; simpl; auto).
  rewrite En, !lacks_append in Hn.
  apply andb_prop in Hn. destruct Hn as [Hy Hn].
  apply andb_prop in Hn. destruct Hn as [_ Hf].
  assert (forall tail,
            (if nonempty pz && nonempty px && nonempty py && nonempty pf
             then Some (Params pz px py pf) else None) = Some p ->
            path = "/" ++ pz ++ "/" ++ px ++ "/" ++ name ++ tail ->
            routable p = true /\
            path = ("/" ++ tile_name p) ++ tail) as G.
  { intros tail Hp Epath.
    destruct (nonempty pz && nonempty px && nonempty py && nonempty pf)
      eqn:Ene; [|discriminate].
    injection Hp as <-. split.
    - unfold routable; cbn [z x y format].
      now rewrite Ene, Hz, Hx, Hy, Hf, Hdot.
    - rewrite Epath, En. unfold tile_name; cbn [z x y format].
      simpl. f_equal.
      repeat (rewrite !append_associative; simpl). reflexivity. }
  destruct rest as [|r0 [|r1 r2]]; [| |destruct r0; discriminate].
  - destruct (G "" H) as [Hr Ep].
    + rewrite <- Hc. simpl. now rewrite append_empty_r.
    + split; [exact Hr|left]. now rewrite append_empty_r in Ep.
  - destruct r0; [|discriminate].
    destruct (G "/" H) as [Hr Ep].
    + rewrite <- Hc. reflexivity.
    + split; [exact Hr|now right].
Qed.

(** And the route matches every such path. *)
Lemma matchTile_complete (p : params) :
  routable p = true ->
  matchTile ("/" ++ tile_name p) = Some p /\
  matchTile (("/" ++ tile_name p) ++ "/") = Some p.
Proof.
  destruct p as [pz px py pf]. intros Hr.
  unfold routable in Hr; cbn [z x y format] in Hr.
  repeat (apply andb_prop in Hr; destruct Hr as [Hr ?]).
  assert (lacks "/" (py ++ "." ++ pf) = true) as Hn
    by (rewrite !lacks_append; simpl;
        repeat (apply andb_true_intro; split); auto).
  assert (forall t,
            Posix.split "/" ("/" ++ pz ++ "/" ++ px ++ "/" ++ t)
            = "" :: pz :: px :: Posix.split "/" t) as S.
  { intros t. unfold Posix.split. simpl.
    rewrite split_aux_append, (split_aux_whole "/" "" pz) by assumption.
    unfold Posix.split.
    rewrite split_aux_append, (split_aux_whole "/" "" px) by assumption.
    reflexivity. }
  assert (forall rest,
            rest = [] \/ rest = [""] ->
            forall s,
              Posix.split "/" s
              = "" :: pz :: px :: (py ++ "." ++ pf) :: rest ->
              matchTile s = Some (Params pz px py pf)) as M.
  { intros rest Hrest s Es. unfold matchTile. rewrite Es.
    rewrite (split_extension_complete py pf) by assumption.
    assert (nonempty pz && nonempty px && nonempty py && nonempty pf = true)
      as -> by (repeat (apply andb_true_intro; split); assumption).
    destruct Hrest as [-> | ->]; reflexivity. }
  unfold tile_name; cbn [z x y format]. split.
  - apply (M []); [now left|].
    rewrite S. unfold Posix.split.
    now rewrite (split_aux_whole "/" "" _ Hn).
  - apply (M [""]); [now right|].
    replace (("/" ++ pz ++ "/" ++ px ++ "/" ++ py ++ "." ++ pf) ++ "/")
      with ("/" ++ pz ++ "/" ++ px ++ "/" ++ ((py ++ "." ++ pf) ++ String "/" ""))
      by (simpl; f_equal;
          repeat (rewrite !append_associative; simpl); reflexivity).
    rewrite S. unfold Posix.split.
    rewrite split_aux_append, (split_aux_whole "/" "" _ Hn). reflexivity.
Qed.

(** The captures of a path without a percent sign are the parameters. *)
Lemma matchTile_plain (path : string) (raw : params) :
  matchTile path = Some raw -> lacks "%" path = true ->
  decodeParams raw = inr raw.
Proof.
  intros Hm Hl. apply decodeParams_plain.
  destruct (matchTile_sound path raw Hm) as [_ [E|E]]; rewrite E in Hl.
  - simpl in Hl. exact Hl.
  - rewrite lacks_append in Hl. apply andb_prop in Hl. now destruct Hl.
Qed.

Lemma own_put_header (h : list (string * JS.value)) (k k' : string) (v : JS.value) :
  JS.own (put_header k v h) k' =
  if (k =? k')%string then Some v else JS.own h k'.
Proof.
  induction h as [|[k0 v0] r IH]; simpl.
  - reflexivity.
  - destruct (String.eqb_spec k0 k) as [->|N]; simpl.
    + destruct (k =? k')%string; reflexivity.
    + rewrite IH. destruct (String.eqb_spec k0 k') as [->|N']; [|reflexivity].
      destruct (String.eqb_spec k k') as [->|_]; [contradiction|reflexivity].
Qed.

Lemma getHeader_setHeader (name name' : string) (v : JS.value) (res : response) :
  getHeader name' (setHeader name v res) =
  if (JS.toLowerCase name =? JS.toLowerCase name')%string then Some v
  else getHeader name' res.
Proof.
  unfold getHeader, setHeader; simpl. apply own_put_header.
Qed.

Lemma getHeader_send_bytes (name : string) (content : FS.bytes) (res : response) :
  getHeader name (send_bytes content res) = getHeader name res.
Proof. reflexivity. Qed.

Lemma getHeader_send_json (name : string) (doc : json) (res : response) :
  getHeader name (send_json doc res) = getHeader name res.
Proof. reflexivity. Qed.

Lemma getHeader_set_status (name : string) (code : Z) (res : response) :
  getHeader name (set_status code res) = getHeader name res.
Proof. reflexivity. Qed.

Lemma getHeader_announce (name file : string) (res : response) :
  getHeader name (announce file res) = getHeader name res.
Proof. reflexivity. Qed.

Lemma getHeader_for_method (name : string) (m : method) (res : response) :
  getHeader name (for_method m res) = getHeader name res.
Proof. destruct m; reflexivity. Qed.

(** ** Computations leave the file system alone *)

Lemma reads_only_ret {A} (a : A) : reads_only (ret a).
Proof. split; intros; reflexivity. Qed.

Lemma reads_only_bind {A B} (c : IO A) (k : A -> IO B) :
  reads_only c -> (forall a, reads_only (k a)) -> reads_only (bind c k).
Proof.
  intros [Hc1 Hc2] Hk. split.
  - intros w. unfold bind. specialize (Hc1 w).
    destruct (c w) as [a w1]; simpl in *.
    destruct (Hk a) as [Hk1 _]. now rewrite Hk1.
  - intros w w' E. unfold bind.
    pose proof (Hc1 w) as F. pose proof (Hc1 w') as F'.
    pose proof (Hc2 w w' E) as V.
    destruct (c w) as [a w1], (c w') as [a' w1']; simpl in *. subst a'.
    destruct (Hk a) as [_ Hk2]. apply Hk2. congruence.
Qed.

Lemma reads_only_log (text : string) : reads_only (console_log text).
Proof. split; intros; reflexivity. Qed.

Lemma reads_only_error (text : string) : reads_only (console_error text).
Proof. split; intros; reflexivity. Qed.

Lemma reads_only_access (p : Posix.path) : reads_only (fs_access p).
Proof. split; intros; unfold fs_access; simpl; congruence. Qed.

Lemma reads_only_sendFile (m : method) (p : Posix.path) :
  reads_only (fs_sendFile m p).
Proof. split; intros; unfold fs_sendFile; simpl; congruence. Qed.

Lemma reads_only_directories (p : Posix.path) : reads_only (fs_directories p).
Proof. split; intros; unfold fs_directories; simpl; congruence. Qed.

Create HintDb readers.
#[local] Hint Resolve reads_only_ret reads_only_log reads_only_error
  reads_only_access reads_only_sendFile reads_only_directories : readers.

Ltac reader :=
  repeat first
    [ apply reads_only_bind; [ auto with readers | intros ? ]
    | match goal with
      | |- reads_only (if ?b then _ else _) => destruct b
      | |- reads_only (match ?s with inl _ => _ | inr _ => _ end) => destruct s
      | |- reads_only (match ?s with Sent _ => _ | NotSent _ _ => _ end) =>
          destruct s
      end
    | solve [ auto with readers ] ].

(** ** What [res.sendFile] does with a path it takes as it is *)

Lemma sendFile_sendable (m : method) (root : FS.node) (p : Posix.path) :
  sendable p = true ->
  sendFile m root p =
  match Send.file m root p with
  | Send.Streamed content => Sent content
  | Send.Directory => NotSent "EISDIR, read" false
  | Send.Refused _ message announced => NotSent message announced
  end.
Proof.
  unfold sendable, sendFile. intros H.
  repeat (apply andb_prop in H; destruct H as [H ?]).
  rewrite H. simpl.
  destruct (existsb Send.up p); [discriminate|].
  destruct (Send.hidden (last p "")); [discriminate|].
  destruct (Posix.final_slash p); [discriminate|]. reflexivity.
Qed.

(** A regular file that can be opened is sent. *)
Lemma sendFile_readable (root : FS.node) (p : Posix.path) (content : FS.bytes) :
  sendable p = true ->
  FS.resolve root p = inr (FS.File content true) ->
  FS.access root p = true /\ sendFile GET root p = Sent content.
Proof.
  intros Hp H. rewrite (sendFile_sendable GET root p Hp).
  unfold FS.access, Send.file. now rewrite H.
Qed.

(** And nothing else is. *)
Lemma sendFile_sent (root : FS.node) (p : Posix.path) (content : FS.bytes) :
  sendable p = true ->
  sendFile GET root p = Sent content ->
  FS.resolve root p = inr (FS.File content true).
Proof.
  intros Hp. rewrite (sendFile_sendable GET root p Hp). unfold Send.file.
  destruct (FS.resolve root p) as [e|[c [] | es l s |]]; simpl;
    try discriminate.
  now intros [= ->].
Qed.

(** A last component that starts with a dot is refused, whatever is
    there. *)
Lemma sendFile_hidden (m : method) (root : FS.node) (p : Posix.path) :
  Send.hidden (last p "") = true ->
  exists message announced, sendFile m root p = NotSent message announced.
Proof.
  intros H. unfold sendFile. rewrite H.
  destruct (negb _); [|destruct (existsb Send.up p)]; eauto.
Qed.

Section Properties.

Variable dirname : Posix.path.
Variable cwd : Posix.path.
Variable env_PORT : option string.

(** ** The tile handler *)

Lemma reads_only_tileRoute (m : method) (p : params) (res : response) :
  reads_only (tileRoute dirname m p res).
Proof. unfold tileRoute. reader. Qed.

(** The response of the tile handler, branch by branch. *)
Lemma tileRoute_response (m : method) (p : params) (res : response)
    (w : World) :
  fst (tileRoute dirname m p res w) =
  if FS.access (fs w) (tilePath dirname p) then
    let res1 :=
      if JS.truthy (getContentType (format p))
      then setHeader "Content-Type" (getContentType (format p)) res
      else res in
    let res2 :=
      setHeader "Cache-Control" (JS.VString "public, max-age=3600") res1 in
    let file :=
      Send.named (Posix.final_slash (tilePath dirname p)) (tilePath dirname p) in
    match sendFile m (fs w) (tilePath dirname p) with
    | Sent content => send_bytes content (announce file res2)
    | NotSent _ announced =>
        send_json (JObj [ ("error", JStr "Error serving tile") ])
                  (set_status 500
                     (if announced then announce file res2 else res2))
    end
  else
    send_json (JObj [ ("error", JStr "Tile not found");
                      ("path", JStr (tile_name p)) ])
              (set_status 404 res).
Proof.
  unfold tileRoute, bind, console_log, fs_access, fs_sendFile, ret; simpl.
  destruct (FS.access (fs w) (tilePath dirname p)); simpl; [|reflexivity].
  destruct (sendFile m (fs w) (tilePath dirname p)); reflexivity.
Qed.

Lemma tileHandler_response (p : params) (res : response) (w : World) :
  fst (tileHandler dirname p res w) = fst (tileRoute dirname GET p res w).
Proof. reflexivity. Qed.

(** The status and the headers the program has set when [res.sendFile]
    is called. *)
Lemma status_prepared (f : string) (res : response) :
  status
    (setHeader "Cache-Control" (JS.VString "public, max-age=3600")
       (if JS.truthy (getContentType f)
        then setHeader "Content-Type" (getContentType f) res
        else res)) = status res.
Proof. destruct (JS.truthy (getContentType f)); reflexivity. Qed.

(** The table of the program agrees with the documented one. *)
Lemma types_documented (ext : string) :
  JS.own types ext = option_map JS.VString (documented_mime ext).
Proof.
  unfold documented_mime, types; simpl.
  rewrite !(String.eqb_sym _ ext).
  repeat match goal with
         | |- context [(ext =? ?k)%string] => destruct (ext =? k)%string
         end; reflexivity.
Qed.

Lemma getContentType_documented (f mime : string) :
  documented_mime (JS.toLowerCase f) = Some mime ->
  getContentType f = JS.VString mime.
Proof.
  intros H. unfold getContentType, JS.member.
  now rewrite types_documented, H.
Qed.

Lemma documented_mime_nonempty (ext mime : string) :
  documented_mime ext = Some mime -> JS.truthy (JS.VString mime) = true.
Proof.
  unfold documented_mime.
  repeat match goal with
         | |- context [if ?b then _ else _] => destruct b
         end; intros [= <-]; reflexivity.
Qed.

(** A format that is neither documented nor one of the two lower-case
    names every object answers to resolves to [undefined]. *)
Lemma getContentType_unknown (f : string) :
  documented_mime (JS.toLowerCase f) = None ->
  JS.toLowerCase f <> "constructor" ->
  JS.toLowerCase f <> "__proto__" ->
  getContentType f = JS.VUndefined.
Proof.
  intros Hd Hc Hp. unfold getContentType, JS.member.
  rewrite types_documented, Hd; simpl. unfold JS.object_prototype.
  destruct (String.eqb_spec (JS.toLowerCase f) "constructor"); [contradiction|].
  destruct (String.eqb_spec (JS.toLowerCase f) "__proto__"); [contradiction|].
  assert (existsb (String.eqb (JS.toLowerCase f))
            ["hasOwnProperty"; "isPrototypeOf"; "propertyIsEnumerable";
             "toLocaleString"; "toString"; "valueOf";
             "__defineGetter__"; "__defineSetter__";
             "__lookupGetter__"; "__lookupSetter__"] = false) as ->.
  { apply not_true_is_false. intros E. apply existsb_exists in E.
    destruct E as [k [Hin Hk]]. apply String.eqb_eq in Hk.
    revert Hk. apply lowered_differs.
    simpl in Hin.
    repeat (destruct Hin as [<-|Hin]; [discriminate|]). destruct Hin. }
  reflexivity.
Qed.

(** The header a tile request leaves under Content-Type when the format
    is a documented one. *)
Lemma documented_type_set (m : method) (p : params) (res : response)
    (w : World) (mime : string) :
  documented_mime (JS.toLowerCase (format p)) = Some mime ->
  getHeader "Content-Type" (fst (tileRoute dirname m p res w)) =
  if FS.access (fs w) (tilePath dirname p)
  then Some (JS.VString mime) else getHeader "Content-Type" res.
Proof.
  intros Hp. rewrite tileRoute_response.
  destruct (FS.access (fs w) (tilePath dirname p)); [|reflexivity].
  cbv zeta.
  rewrite (getContentType_documented _ _ Hp),
          (documented_mime_nonempty _ _ Hp).
  destruct (sendFile m (fs w) (tilePath dirname p)) as [c|msg []];
    rewrite ?getHeader_send_bytes, ?getHeader_send_json,
            ?getHeader_set_status, ?getHeader_announce, !getHeader_setHeader;
    reflexivity.
Qed.

(** C1 (amended): for every tile request whose file is a regular file
    that can be read, at a path that [send] takes as it is (its last
    component does not start with a dot), the tile handler answers with
    status 200, the bytes of the file as body, the header Cache-Control:
    public, max-age=3600 and, when the format is in the documented table
    whatever its letter case, the Content-Type the table gives. *)
Theorem tile_served (p : params) (res : response) (w : World)
    (content : FS.bytes) :
  status res = 200 ->
  sendable (tilePath dirname p) = true ->
  FS.resolve (fs w) (tilePath dirname p) = inr (FS.File content true) ->
  let res' := fst (tileHandler dirname p res w) in
  status res' = 200 /\
  body res' = FileBody content /\
  getHeader "Cache-Control" res' = Some (JS.VString "public, max-age=3600") /\
  (forall mime, documented_mime (JS.toLowerCase (format p)) = Some mime ->
                getHeader "Content-Type" res' = Some (JS.VString mime)).
Proof.
  intros Hs Hp Hf res'. subst res'.
  destruct (sendFile_readable _ _ _ Hp Hf) as [Ha Hr].
  split; [|split; [|split]].
  - rewrite tileHandler_response, tileRoute_response, Ha, Hr; cbv zeta.
    unfold send_bytes, announce; simpl. rewrite <- Hs. apply status_prepared.
  - rewrite tileHandler_response, tileRoute_response, Ha, Hr. reflexivity.
  - rewrite tileHandler_response, tileRoute_response, Ha, Hr; cbv zeta.
    now rewrite getHeader_send_bytes, getHeader_announce, getHeader_setHeader.
  - intros mime Hm. rewrite tileHandler_response.
    now rewrite (documented_type_set GET p res w mime Hm), Ha.
Qed.

(** The other outcome for a tile that exists: when its transfer fails,
    the answer is 500 with the body {error: "Error serving tile"}. *)
Lemma tile_transfer_fails (p : params) (res : response) (w : World)
    (message : string) (announced : bool) :
  FS.access (fs w) (tilePath dirname p) = true ->
  sendFile GET (fs w) (tilePath dirname p) = NotSent message announced ->
  let res' := fst (tileHandler dirname p res w) in
  status res' = 500 /\
  body res' = JsonBody (JObj [ ("error", JStr "Error serving tile") ]).
Proof.
  intros Ha Hr res'. subst res'.
  rewrite tileHandler_response, tileRoute_response, Ha, Hr.
  split; reflexivity.
Qed.

(** C2: for every tile request whose file does not exist, the tile
    handler answers with status 404 and the JSON body
    {error: "Tile not found", path: "<z>/<x>/<y>.<format>"}. *)
Theorem tile_missing (p : params) (res : response) (w : World) :
  FS.access (fs w) (tilePath dirname p) = false ->
  let res' := fst (tileHandler dirname p res w) in
  status res' = 404 /\
  body res' =
    JsonBody
      (JObj [ ("error", JStr "Tile not found");
              ("path", JStr (z p ++ "/" ++ x p ++ "/" ++ y p ++ "." ++ format p)) ]).
Proof.
  intros Ha res'. subst res'.
  rewrite tileHandler_response, tileRoute_response, Ha. split; reflexivity.
Qed.

(** C6 (amended): for every tile request whose format, lower-cased, is
    neither in the documented table nor one of the names constructor and
    __proto__, if the file is a regular file that can be read, at a path
    that [send] takes as it is (its last component does not start with a
    dot), the answer has status 200 and the bytes of the file, and the
    handler leaves the Content-Type header as it found it. *)
Theorem unknown_format_served (p : params) (res : response) (w : World)
    (content : FS.bytes) :
  status res = 200 ->
  documented_mime (JS.toLowerCase (format p)) = None ->
  JS.toLowerCase (format p) <> "constructor" ->
  JS.toLowerCase (format p) <> "__proto__" ->
  sendable (tilePath dirname p) = true ->
  FS.resolve (fs w) (tilePath dirname p) = inr (FS.File content true) ->
  let res' := fst (tileHandler dirname p res w) in
  status res' = 200 /\
  body res' = FileBody content /\
  getHeader "Content-Type" res' = getHeader "Content-Type" res.
Proof.
  intros Hs Hd Hc Hp Hsend Hf res'. subst res'.
  destruct (sendFile_readable _ _ _ Hsend Hf) as [Ha Hr].
  rewrite tileHandler_response, tileRoute_response, Ha, Hr.
  rewrite (getContentType_unknown _ Hd Hc Hp); cbv zeta.
  repeat split; try assumption.
  now rewrite getHeader_send_bytes, getHeader_announce, getHeader_setHeader.
Qed.

(** C8: the tile handler never changes the file system, its response is
    a function of the request and of the file system alone, and so two
    identical requests made one after the other receive the same status,
    the same headers and the same body. *)
Theorem tile_requests_repeatable (p : params) (res : response) (w : World) :
  let first := tileHandler dirname p res w in
  let second := tileHandler dirname p res (snd first) in
  fs (snd first) = fs w /\
  fs (snd second) = fs w /\
  (forall w', fs w' = fs w ->
     fst (tileHandler dirname p res w') = fst first) /\
  fst second = fst first.
Proof.
  destruct (reads_only_tileRoute GET p res) as [Hfs Hval].
  fold (tileHandler dirname p res) in Hfs, Hval.
  intros first second. subst first second.
  assert (fs (snd (tileHandler dirname p res w)) = fs w) as E by apply Hfs.
  repeat split.
  - exact E.
  - now rewrite Hfs.
  - intros w' Hw. now apply Hval.
  - now apply Hval.
Qed.

(** C9: content-type resolution ignores the letter case of the format:
    when the lower-cased format is in the table, [getContentType] gives
    the format and its lower-case form the same type; the handler leaves
    the same Content-Type for a request and for the same request with
    the format in lower case when both tiles exist or both are missing,
    and it is the type of the table when they exist (PNG and Jpeg are
    treated as png and jpeg). *)
Theorem content_type_ignores_case (f mime : string) :
  documented_mime (JS.toLowerCase f) = Some mime ->
  getContentType f = JS.VString mime /\
  getContentType (JS.toLowerCase f) = JS.VString mime /\
  (forall p res w w',
     format p = f ->
     let q := Params (z p) (x p) (y p) (JS.toLowerCase f) in
     FS.access (fs w) (tilePath dirname p)
       = FS.access (fs w') (tilePath dirname q) ->
     getHeader "Content-Type" (fst (tileHandler dirname p res w))
       = getHeader "Content-Type" (fst (tileHandler dirname q res w')) /\
     (FS.access (fs w) (tilePath dirname p) = true ->
      getHeader "Content-Type" (fst (tileHandler dirname p res w))
        = Some (JS.VString mime))) /\
  getContentType "PNG" = getContentType "png" /\
  getContentType "Jpeg" = getContentType "jpeg".
Proof.
  intros Hm.
  assert (documented_mime (JS.toLowerCase (JS.toLowerCase f)) = Some mime) as Hm'
    by now rewrite toLowerCase_idempotent.
  split; [now apply getContentType_documented|].
  split; [now apply getContentType_documented|].
  split; [|split; reflexivity].
  intros p res w w' Hf q Ha. subst q.
  rewrite !tileHandler_response.
  rewrite (documented_type_set GET p res w mime) by now rewrite Hf.
  rewrite (documented_type_set GET _ res w' mime) by exact Hm'.
  rewrite <- Ha. split; [reflexivity|].
  intros E. now rewrite E.
Qed.

(** C5 (amended): the port is 3000 exactly when PORT is unset or empty;
    any other value of PORT is taken as it is, numeric or not. *)
Theorem port_default :
  (PORT env_PORT = JS.VNumber (JS.Int 3000) <->
   env_PORT = None \/ env_PORT = Some "") /\
  (forall s, env_PORT = Some s -> s <> "" -> PORT env_PORT = JS.VString s).
Proof.
  unfold PORT, JS.or. destruct env_PORT as [s|]; simpl.
  - destruct (String.eqb_spec s "") as [->|N]; simpl; split.
    + split; auto.
    + intros s' [= <-] N. now destruct N.
    + split; [discriminate|]. intros [H|[= H]]; [discriminate|contradiction].
    + now intros s' [= <-] _.
  - split; [split; auto|discriminate].
Qed.

(** ** Sorting numbers *)

(** The comparator [(a, b) => a - b] is positive exactly above. *)
Lemma sub_positive (a b : JS.number) :
  is_number a = true -> is_number b = true ->
  if JS.positive (JS.sub a b) then number_le b a /\ a <> b
  else number_le a b.
Proof.
  destruct a as [|m|[]], b as [|n|[]]; try discriminate; intros _ _;
    simpl; try exact I; try (split; [exact I|discriminate]).
  rewrite positive_of_integer.
  destruct (Z.ltb_spec 0 (m - n)); simpl; [|lia].
  split; [lia|]. intros [= E]. lia.
Qed.

Lemma number_le_transitive (a b c : JS.number) :
  number_le a b -> number_le b c -> number_le a c.
Proof.
  destruct a as [|m|[]], b as [|n|[]], c as [|k|[]]; simpl;
    try tauto; lia.
Qed.

Lemma number_le_antisymmetric (a b : JS.number) :
  number_le a b -> number_le b a -> a = b.
Proof.
  destruct a as [|m|[]], b as [|n|[]]; simpl; try tauto.
  intros H1 H2. f_equal. lia.
Qed.

Lemma number_le_number (a b : JS.number) :
  number_le a b -> is_number a = true /\ is_number b = true.
Proof.
  destruct a as [|m|[]], b as [|n|[]]; simpl; try tauto; auto.
Qed.

(** Inserting a number into an ascending run of numbers. *)
Lemma insert_sorted (a : JS.number) (l : list JS.number) :
  is_number a = true ->
  Forall (fun v => is_number v = true) l ->
  StronglySorted number_le l ->
  StronglySorted number_le (JS.insert JS.sub a l) /\
  Permutation (a :: l) (JS.insert JS.sub a l).
Proof.
  intros Ha Hn Hs.
  induction l as [|b r IH]; simpl.
  - split; [repeat constructor|reflexivity].
  - inversion Hs as [|? ? Hr Hb]; subst.
    inversion Hn as [|? ? Hnb Hnr]; subst.
    pose proof (sub_positive a b Ha Hnb) as Hab.
    destruct (JS.positive (JS.sub a b)).
    + destruct Hab as [Hba _].
      destruct (IH Hnr Hr) as [Hs' Hp]. split.
      * constructor; [exact Hs'|].
        apply (Permutation_Forall Hp). now constructor.
      * rewrite perm_swap. now constructor.
    + split; [|reflexivity].
      constructor; [exact Hs|].
      constructor; [exact Hab|].
      eapply Forall_impl; [|exact Hb].
      intros c Hc. now apply (number_le_transitive a b c).
Qed.

(** Sorting a list without NaN with [(a, b) => a - b]: the result is
    the same numbers in ascending order. *)
Lemma sort_numbers (l : list JS.number) :
  Forall (fun v => is_number v = true) l ->
  StronglySorted number_le (JS.sort JS.sub l) /\
  Permutation l (JS.sort JS.sub l).
Proof.
  induction l as [|v r IH]; intros Hn; simpl.
  - split; constructor.
  - inversion Hn as [|? ? Hv Hr]; subst.
    destruct (IH Hr) as [Hs Hp].
    destruct (insert_sorted v (JS.sort JS.sub r) Hv) as [Hs' Hp'];
      [apply (Permutation_Forall Hp Hr)|exact Hs|].
    split; [exact Hs'|].
    transitivity (v :: JS.sort JS.sub r); [now constructor|exact Hp'].
Qed.

(** Two ascending lists with the same elements are the same list. *)
Lemma sorted_unique (l1 l2 : list JS.number) :
  StronglySorted number_le l1 -> StronglySorted number_le l2 ->
  Permutation l1 l2 -> l1 = l2.
Proof.
  revert l2. induction l1 as [|a r IH]; intros l2 H1 H2 Hp.
  - now apply Permutation_nil in Hp.
  - destruct l2 as [|b r2].
    + symmetry in Hp. now apply Permutation_nil in Hp.
    + inversion H1 as [|? ? Hr Ha]; inversion H2 as [|? ? Hr2 Hb]; subst.
      assert (a = b) as ->.
      { assert (In b (a :: r)) as Hin
          by (apply (Permutation_in b (Permutation_sym Hp)); now left).
        assert (In a (b :: r2)) as Hin'
          by (apply (Permutation_in a Hp); now left).
        rewrite Forall_forall in Ha, Hb.
        destruct Hin as [->|Hin]; [reflexivity|].
        destruct Hin' as [->|Hin']; [reflexivity|].
        apply number_le_antisymmetric; auto. }
      f_equal. apply IH; auto. now apply Permutation_cons_inv in Hp.
Qed.

Lemma Permutation_filter' {A} (f : A -> bool) (l l' : list A) :
  Permutation l l' -> Permutation (filter f l) (filter f l').
Proof.
  induction 1 as [|a l l' _ IH|a b l|l l' l'' _ IH1 _ IH2]; simpl.
  - constructor.
  - destruct (f a); [now constructor|exact IH].
  - destruct (f a), (f b); try reflexivity. apply perm_swap.
  - now transitivity (filter f l').
Qed.

(** ** Listing the directories of a directory *)

Lemma filter_throwing_succeeds {A} (keep : A -> FS.result bool) (xs : list A) :
  Forall (fun x => exists b, keep x = inr b) xs ->
  filter_throwing keep xs =
  inr (filter (fun x => match keep x with inr true => true | _ => false end) xs).
Proof.
  induction 1 as [|x r [b Hb] _ IH]; simpl.
  - reflexivity.
  - rewrite Hb, IH. now destruct b.
Qed.

Lemma filter_throwing_fails {A} (keep : A -> FS.result bool) (xs : list A)
    (x : A) (e : FS.errno) :
  In x xs -> keep x = inl e -> exists e', filter_throwing keep xs = inl e'.
Proof.
  induction xs as [|x0 r IH]; intros Hin Hx; [destruct Hin|].
  simpl. destruct (keep x0) as [e0|b] eqn:E0; [now exists e0|].
  destruct Hin as [->|Hin]; [congruence|].
  destruct (IH Hin Hx) as [e' ->]. now exists e'.
Qed.

(** When the listing and every [statSync] succeed, [directories] is the
    listing filtered by [is_directory]. *)
Lemma directories_succeeds (root : FS.node) (dir : Posix.path)
    (items : list string) :
  FS.readdirSync root dir = inr items ->
  Forall (stat_succeeds root dir) items ->
  directories root dir = inr (filter (is_directory root dir) items).
Proof.
  intros Hl Hs. unfold directories. rewrite Hl.
  now rewrite filter_throwing_succeeds.
Qed.

(** When the listing or one [statSync] throws, so does [directories]. *)
Lemma directories_fails (root : FS.node) (dir : Posix.path) :
  (exists e, FS.readdirSync root dir = inl e) \/
  (exists items item e,
     FS.readdirSync root dir = inr items /\ In item items /\
     FS.statSync_isDirectory root (Posix.join dir [item]) = inl e) ->
  exists e, directories root dir = inl e.
Proof.
  unfold directories.
  intros [[e ->]|[items [item [e [-> [Hin He]]]]]].
  - now exists e.
  - eapply filter_throwing_fails; eauto.
Qed.

(** ** Zoom levels *)

Lemma reads_only_getAvailableZoomLevels :
  reads_only (getAvailableZoomLevels dirname).
Proof. unfold getAvailableZoomLevels. reader. Qed.

Lemma getAvailableZoomLevels_value (w : World) :
  fst (getAvailableZoomLevels dirname w) =
  match directories (fs w) (tilesDir dirname) with
  | inr dirs => JS.sort JS.sub (filter is_number (map JS.parseInt dirs))
  | inl _ => []
  end.
Proof.
  unfold getAvailableZoomLevels, bind, fs_directories; simpl.
  destruct (directories (fs w) (tilesDir dirname)); reflexivity.
Qed.

Lemma filter_is_number (l : list JS.number) :
  Forall (fun v => is_number v = true) (filter is_number l).
Proof.
  apply Forall_forall. intros v Hv. now apply filter_In in Hv.
Qed.

(** The levels, given the directories of the tiles root: the numbers
    their names read as, in ascending order. *)
Lemma levels_of_directories (w : World) (dirs : list string) :
  directories (fs w) (tilesDir dirname) = inr dirs ->
  let levels := fst (getAvailableZoomLevels dirname w) in
  StronglySorted number_le levels /\
  Permutation (filter is_number (map JS.parseInt dirs)) levels.
Proof.
  intros Hd levels. subst levels. rewrite getAvailableZoomLevels_value, Hd.
  apply sort_numbers, filter_is_number.
Qed.

(** C3 (amended): zoom-level enumeration gives the entries of the tiles
    root that are directories, each name parsed as an integer, those
    that do not parse dropped, in ascending order, provided the root can
    be listed and each of its entries inspected; when the listing throws
    or the inspection of one entry does (a link to nowhere), it gives
    the empty list; with the directories 17, 18, abc and 20 it gives
    [17, 18, 20]. *)
Theorem zoom_levels (w : World) :
  let levels := fst (getAvailableZoomLevels dirname w) in
  let root := tilesDir dirname in
  (forall items,
     FS.readdirSync (fs w) root = inr items ->
     Forall (stat_succeeds (fs w) root) items ->
     Permutation levels
       (filter is_number
          (map JS.parseInt (filter (is_directory (fs w) root) items))) /\
     StronglySorted number_le levels) /\
  (forall e, FS.readdirSync (fs w) root = inl e -> levels = []) /\
  (forall items item e,
     FS.readdirSync (fs w) root = inr items -> In item items ->
     FS.statSync_isDirectory (fs w) (Posix.join root [item]) = inl e ->
     levels = []) /\
  (forall items,
     FS.readdirSync (fs w) root = inr items ->
     Forall (stat_succeeds (fs w) root) items ->
     Permutation (filter (is_directory (fs w) root) items)
                 ["17"; "18"; "abc"; "20"] ->
     levels = [JS.Int 17; JS.Int 18; JS.Int 20]).
Proof.
  intros levels root.
  assert (forall items,
     FS.readdirSync (fs w) root = inr items ->
     Forall (stat_succeeds (fs w) root) items ->
     Permutation levels
       (filter is_number
          (map JS.parseInt (filter (is_directory (fs w) root) items))) /\
     StronglySorted number_le levels) as Good.
  { intros items Hl Hs.
    destruct (levels_of_directories w _ (directories_succeeds _ _ _ Hl Hs))
      as [Hsorted Hp].
    split; [now symmetry|exact Hsorted]. }
  assert (forall e, directories (fs w) root = inl e -> levels = []) as Bad.
  { intros e He. subst levels.
    rewrite getAvailableZoomLevels_value. fold root. now rewrite He. }
  split; [exact Good|]. split; [|split].
  - intros e He.
    destruct (directories_fails (fs w) root) as [e' He']; [left; eauto|].
    now apply (Bad e').
  - intros items item e Hl Hin He.
    destruct (directories_fails (fs w) root) as [e' He'];
      [right; exists items, item, e; auto|].
    now apply (Bad e').
  - intros items Hl Hs Hp.
    destruct (Good items Hl Hs) as [Hperm Hsorted].
    apply sorted_unique; [exact Hsorted|repeat constructor; simpl; lia|].
    rewrite Hperm.
    apply (Permutation_filter' is_number
             (map JS.parseInt (filter (is_directory (fs w) root) items))
             (map JS.parseInt ["17"; "18"; "abc"; "20"])).
    now apply Permutation_map.
Qed.

(** A directory of the tiles root that bears the decimal name of an
    integer that a double holds exactly is found as that level. *)
Lemma canonical_directory_found (w : World) (dirs : list string) (n : Z) :
  safe_integer n ->
  directories (fs w) (tilesDir dirname) = inr dirs ->
  In (JS.toString (JS.Int n)) dirs ->
  In (JS.Int n) (fst (getAvailableZoomLevels dirname w)).
Proof.
  intros Hn Hd Hin.
  destruct (levels_of_directories w dirs Hd) as [_ Hp].
  apply (Permutation_in _ Hp).
  apply filter_In. split; [|reflexivity].
  rewrite <- (parseInt_toString n Hn). now apply in_map.
Qed.

(** ** The tiles-info handler *)

Lemma member_assign (o : list (string * json)) (k k' : string) (v : json) :
  member (assign o k v) k' =
  if (k =? k')%string then Some v else member o k'.
Proof.
  induction o as [|[k0 v0] r IH]; simpl.
  - reflexivity.
  - destruct (String.eqb_spec k0 k) as [->|N]; simpl.
    + destruct (k =? k')%string; reflexivity.
    + rewrite IH. destruct (String.eqb_spec k0 k') as [->|N']; [|reflexivity].
      destruct (String.eqb_spec k k') as [->|_]; [contradiction|reflexivity].
Qed.

(** The loop over the levels is a fold, and leaves the world as it is. *)
Lemma forEach_level_run (levels : list JS.number)
    (structure : list (string * json)) (w : World) :
  forEach_level dirname levels structure w =
  (fold_left
     (fun o level =>
        assign o (JS.toString level)
          (level_entry (directories (fs w) (levelDir dirname level))))
     levels structure, w).
Proof.
  revert structure. induction levels as [|level rest IH]; intros structure.
  - reflexivity.
  - simpl. unfold bind, fs_directories. apply IH.
Qed.

(** After a fold that stores, under the key of each level, a value
    computed from that key, a key holds that value when it is the key of
    a level and is untouched otherwise. *)
Lemma member_fold (entry : string -> json) (levels : list JS.number)
    (o : list (string * json)) (k : string) :
  member
    (fold_left
       (fun o level => assign o (JS.toString level) (entry (JS.toString level)))
       levels o) k =
  if existsb (fun level => (JS.toString level =? k)%string) levels
  then Some (entry k) else member o k.
Proof.
  revert o. induction levels as [|level rest IH]; intros o; simpl.
  - reflexivity.
  - rewrite IH, member_assign.
    destruct (String.eqb_spec (JS.toString level) k) as [->|N]; simpl.
    + now destruct (existsb _ rest).
    + reflexivity.
Qed.

Lemma tilesInfoHandler_response (res : response) (w : World) :
  fst (tilesInfoHandler dirname res w) =
  let levels := fst (getAvailableZoomLevels dirname w) in
  send_json
    (JObj [ ("tiles_directory", JStr (Posix.render (tilesDir dirname)));
            ("available_levels", JArr (map json_of_number levels));
            ("structure",
             JObj (fold_left
                     (fun o level =>
                        assign o (JS.toString level)
                          (level_entry
                             (directories (fs w) (levelDir dirname level))))
                     levels [])) ])
    res.
Proof.
  unfold tilesInfoHandler, bind.
  destruct reads_only_getAvailableZoomLevels as [Hfs _].
  specialize (Hfs w).
  destruct (getAvailableZoomLevels dirname w) as [levels w1]; simpl in *.
  rewrite forEach_level_run, Hfs. reflexivity.
Qed.

(** What the structure of the response holds under a key. *)
Lemma structure_member (w : World) (k : string) :
  let levels := fst (getAvailableZoomLevels dirname w) in
  member
    (fold_left
       (fun o level =>
          assign o (JS.toString level)
            (level_entry (directories (fs w) (levelDir dirname level))))
       levels []) k =
  if existsb (fun level => (JS.toString level =? k)%string) levels
  then Some (level_entry
               (directories (fs w) (Posix.join (tilesDir dirname) [k])))
  else None.
Proof.
  intros levels.
  apply (member_fold
           (fun key => level_entry
              (directories (fs w) (Posix.join (tilesDir dirname) [key])))).
Qed.

Lemma existsb_key (levels : list JS.number) (k : string) :
  existsb (fun level => (JS.toString level =? k)%string) levels = true <->
  exists level, In level levels /\ k = JS.toString level.
Proof.
  rewrite existsb_exists. split; intros [level [Hin Hk]]; exists level.
  - apply String.eqb_eq in Hk. auto.
  - split; [exact Hin|]. apply String.eqb_eq. auto.
Qed.


(** C10: in the tiles-info response, an entry that carries x_directories
    and sample_x_dirs has x_directories equal to the length of
    sample_x_dirs, and sample_x_dirs is the whole list of the
    directories of that level, none left out. *)
Theorem sample_is_complete (res : response) (w : World)
    (structure members : list (string * json)) (k : string) (n : Z)
    (names : list json) :
  let res' := fst (tilesInfoHandler dirname res w) in
  let levels := fst (getAvailableZoomLevels dirname w) in
  body res' =
    JsonBody
      (JObj [ ("tiles_directory", JStr (Posix.render (tilesDir dirname)));
              ("available_levels", JArr (map json_of_number levels));
              ("structure", JObj structure) ]) ->
  member structure k = Some (JObj members) ->
  member members "x_directories" = Some (JNum n) ->
  member members "sample_x_dirs" = Some (JArr names) ->
  n = Z.of_nat (List.length names) /\
  exists level xDirs,
    In level levels /\ k = JS.toString level /\
    directories (fs w) (levelDir dirname level) = inr xDirs /\
    names = map JStr xDirs.
Proof.
  intros res' levels Hb Hk Hn Hnames. subst res'.
  rewrite tilesInfoHandler_response in Hb. cbv zeta in Hb. fold levels in Hb.
  injection Hb as Hb. subst structure.
  rewrite structure_member in Hk. fold levels in Hk.
  destruct (existsb _ levels) eqn:E; [|discriminate].
  apply existsb_key in E. destruct E as [level [Hin ->]].
  fold (levelDir dirname level) in Hk.
  destruct (directories (fs w) (levelDir dirname level)) as [e|xDirs] eqn:D;
    simpl in Hk; injection Hk as <-.
  - discriminate.
  - simpl in Hn, Hnames. injection Hn as <-. injection Hnames as <-.
    split.
    + now rewrite length_map.
    + exists level, xDirs. auto.
Qed.

(** ** Dispatch *)

Lemma serveStatic_keeps_world (req : request) (res : response) (w : World) :
  snd (serveStatic cwd req res w) = w.
Proof.
  unfold serveStatic.
  destruct (negb (handles_get (verb req))); [reflexivity|].
  destruct (JS.decodeURIComponent (url req)) as [path|]; [|reflexivity].
  destruct (_ || _); [reflexivity|]. cbv zeta.
  destruct (if ends_with_slash (url req) then _ else _) as [c| |code msg a];
    try reflexivity.
  destruct (code <? 500); reflexivity.
Qed.

(** The application after [cors()], for a request that is no
    preflight. *)
Lemma app_after_static (req : request) (w : World) :
  verb req <> OPTIONS ->
  app dirname cwd env_PORT req w =
  let answer :=
    match fst (serveStatic cwd req (cors fresh) w) with
    | Served res => (res, w)
    | Failed message res => errorHandler message res w
    | Next => routes dirname env_PORT req (cors fresh) w
    end in
  (for_method (verb req) (fst answer), snd answer).
Proof.
  intros Hv. pose proof (serveStatic_keeps_world req (cors fresh) w) as Hw.
  unfold app.
  destruct (verb req) eqn:E; try contradiction; unfold bind;
    destruct (serveStatic cwd _ (cors fresh) w) as [o w1]; simpl in *;
    subst w1; destruct o as [res| |message res]; simpl;
    match goal with
    | |- (let '(a, w') := ?c in _) = _ => destruct c; reflexivity
    | |- _ => reflexivity
    end.
Qed.

Lemma app_get (req : request) (w : World) :
  verb req = GET ->
  app dirname cwd env_PORT req w =
  match fst (serveStatic cwd req (cors fresh) w) with
  | Served res => (res, w)
  | Failed message res => errorHandler message res w
  | Next => routes dirname env_PORT req (cors fresh) w
  end.
Proof.
  intros Hg. rewrite app_after_static by (rewrite Hg; discriminate).
  rewrite Hg. cbv zeta. simpl for_method.
  now destruct (match fst (serveStatic cwd req (cors fresh) w) with
                | Served res => (res, w)
                | Failed message res => errorHandler message res w
                | Next => routes dirname env_PORT req (cors fresh) w
                end).
Qed.

(** What the static handler does with a decoded path that it looks up
    and that was not sent with a final slash. *)
Lemma serveStatic_lookup (req : request) (res : response) (w : World)
    (path : string) :
  handles_get (verb req) = true ->
  JS.decodeURIComponent (url req) = Some path ->
  lookable path = true ->
  ends_with_slash (url req) = false ->
  let target := Posix.join (publicDir cwd) [path] in
  fst (serveStatic cwd req res w) =
  match Send.file (verb req) (fs w) target with
  | Send.Streamed content =>
      Served (send_bytes content (announce (Posix.render target) res))
  | Send.Directory =>
      Served (redirect (encodeUrl (collapse (url req ++ "/"))) res)
  | Send.Refused code message announced =>
      if code <? 500 then Next
      else Failed message
             (if announced then announce (Posix.render target) res else res)
  end.
Proof.
  intros Hget Hd Hl Hs target. subst target.
  unfold serveStatic. rewrite Hget, Hd, Hs. simpl negb. cbv iota.
  unfold lookable in Hl.
  repeat (apply andb_prop in Hl; destruct Hl as [Hl ?]).
  rewrite Hl.
  destruct (climbs 0 (Posix.split "/" path)); [discriminate|].
  destruct (existsb Send.up (Posix.join [] [path])); [discriminate|].
  destruct (Send.hidden (last (Posix.join [] [path]) "")); [discriminate|].
  simpl. unfold Send.named.
  destruct (Send.file (verb req) (fs w) (Posix.join (publicDir cwd) [path]))
    as [c| |code msg a]; try reflexivity.
  destruct (code <? 500); reflexivity.
Qed.

(** C4 (amended): for a GET request the static handler is consulted
    first, and what it serves is the response whatever route the path
    matches: it serves every path that decodes to the path of a regular
    file of the public directory that can be read and is not hidden; a
    request whose path matches the tile pattern is decided by the tile
    handler, on the decoded captures, when the static handler passes it
    on; when a capture cannot be decoded the error middleware answers;
    a request that the static handler passes on and no route matches
    gets the 404 of the last middleware. *)
Theorem static_comes_first (req : request) (w : World) :
  verb req = GET ->
  let static := fst (serveStatic cwd req (cors fresh) w) in
  (forall res, static = Served res ->
     fst (app dirname cwd env_PORT req w) = res) /\
  (forall path content,
     JS.decodeURIComponent (url req) = Some path ->
     lookable path = true ->
     ends_with_slash (url req) = false ->
     FS.resolve (fs w) (Posix.join (publicDir cwd) [path])
       = inr (FS.File content true) ->
     static =
       Served (send_bytes content
                 (announce (Posix.render (Posix.join (publicDir cwd) [path]))
                    (cors fresh))) /\
     body (fst (app dirname cwd env_PORT req w)) = FileBody content /\
     status (fst (app dirname cwd env_PORT req w)) = 200) /\
  (forall raw p,
     static = Next -> matchTile (url req) = Some raw ->
     decodeParams raw = inr p -> nul_free p = true ->
     app dirname cwd env_PORT req w = tileHandler dirname p (cors fresh) w) /\
  (forall raw capture,
     static = Next -> matchTile (url req) = Some raw ->
     decodeParams raw = inl capture ->
     app dirname cwd env_PORT req w
       = errorHandler (decode_failure capture) (cors fresh) w) /\
  (static = Next -> matchTile (url req) = None ->
   (url req =? "/")%string = false ->
   matchLiteral "/health" (url req) = false ->
   matchLiteral "/tiles-info" (url req) = false ->
   app dirname cwd env_PORT req w = notFound req (cors fresh) w).
Proof.
  intros Hget static. subst static.
  rewrite (app_get req w Hget).
  split; [|split; [|split; [|split]]].
  - intros res ->. reflexivity.
  - intros path content Hd Hl Hs Hf.
    assert (fst (serveStatic cwd req (cors fresh) w) =
            Served (send_bytes content
                      (announce
                         (Posix.render (Posix.join (publicDir cwd) [path]))
                         (cors fresh)))) as E.
    { rewrite (serveStatic_lookup req (cors fresh) w path) by
        (try assumption; rewrite Hget; reflexivity).
      cbv zeta. unfold Send.file. rewrite Hf, Hget. reflexivity. }
    rewrite E. repeat split.
  - intros raw p -> Hm Hp _. unfold routes. rewrite Hm, Hp, Hget. reflexivity.
  - intros raw capture -> Hm Hp. unfold routes. now rewrite Hm, Hp.
  - intros -> Hp H1 H2 H3. unfold routes.
    now rewrite Hp, Hget, H1, H2, H3.
Qed.


End Properties.

(* ================================================================== *)
(** * The properties on the sample deployments                          *)
(* ================================================================== *)

(** GET /18/131072/131072.png on the sample pyramid. *)
Lemma tile_served_sample :
  let res' :=
    fst (tileHandler Sample.dirname (Sample.tile "png") fresh Sample.plain) in
  status res' = 200 /\
  body res' = FileBody Sample.png /\
  getHeader "Cache-Control" res' = Some (JS.VString "public, max-age=3600") /\
  getHeader "Content-Type" res' = Some (JS.VString "image/png").
Proof.
  destruct (tile_served Sample.dirname (Sample.tile "png") fresh Sample.plain
              Sample.png) as (H1 & H2 & H3 & H4);
    [reflexivity | reflexivity | reflexivity |].
  split; [exact H1|]. split; [exact H2|]. split; [exact H3|].
  apply H4. reflexivity.
Defined.

(** An existing tile that cannot be opened is answered with 500, not
    200: GET /18/131072/locked.png.  So is a tile that can be read and
    whose name starts with a dot: GET /18/131072/.hidden.png. *)
Lemma tile_exists_yet_500 :
  (FS.resolve (fs Sample.plain) (tilePath Sample.dirname (Sample.locked "png"))
     = inr (FS.File Sample.png false) /\
   FS.access (fs Sample.plain) (tilePath Sample.dirname (Sample.locked "png"))
     = true /\
   let res' :=
     fst (tileHandler Sample.dirname (Sample.locked "png") fresh Sample.plain) in
   status res' = 500 /\
   status res' <> 200 /\
   body res' = JsonBody (JObj [ ("error", JStr "Error serving tile") ])) /\
  (FS.resolve (fs Sample.plain) (tilePath Sample.dirname (Sample.dotted "png"))
     = inr (FS.File Sample.png true) /\
   let res' :=
     fst (tileHandler Sample.dirname (Sample.dotted "png") fresh Sample.plain) in
   status res' = 500 /\
   body res' = JsonBody (JObj [ ("error", JStr "Error serving tile") ])).
Proof.
  repeat split; try reflexivity. discriminate.
Qed.

(** GET /19/0/0.png where there is no level 19. *)
Lemma tile_missing_sample :
  let res' :=
    fst (tileHandler Sample.dirname (Params "19" "0" "0" "png") fresh
           Sample.plain) in
  status res' = 404 /\
  body res' = JsonBody (JObj [ ("error", JStr "Tile not found");
                               ("path", JStr "19/0/0.png") ]).
Proof.
  apply (tile_missing Sample.dirname (Params "19" "0" "0" "png") fresh
           Sample.plain).
  reflexivity.
Defined.

Lemma sample_stats (w : World) (dir : Posix.path) (items : list string) :
  forallb
    (fun item =>
       match FS.statSync_isDirectory (fs w) (Posix.join dir [item]) with
       | inr _ => true
       | inl _ => false
       end) items = true ->
  Forall (stat_succeeds (fs w) dir) items.
Proof.
  intros H. apply Forall_forall. intros item Hin.
  rewrite forallb_forall in H. specialize (H item Hin). unfold stat_succeeds.
  destruct (FS.statSync_isDirectory (fs w) (Posix.join dir [item])) as [e|b];
    [discriminate|now exists b].
Defined.

(** The levels of the sample pyramid, of a deployment without a tiles
    directory, and of a tiles root with a dangling link in it. *)
Lemma zoom_levels_sample :
  fst (getAvailableZoomLevels Sample.dirname Sample.plain)
    = [JS.Int 17; JS.Int 18; JS.Int 20] /\
  fst (getAvailableZoomLevels Sample.dirname Sample.bare) = [] /\
  fst (getAvailableZoomLevels Sample.dirname Sample.broken) = [].
Proof.
  split; [|split].
  - destruct (zoom_levels Sample.dirname Sample.plain) as (_ & _ & _ & H).
    apply (H ["20"; "17"; "abc"; "notes.txt"; "18"]).
    + reflexivity.
    + apply sample_stats. reflexivity.
    + change (Permutation ("20" :: ["17"; "abc"; "18"])
                          (["17"; "18"; "abc"] ++ "20" :: [])).
      apply Permutation_cons_app. simpl.
      apply perm_skip, perm_swap.
  - destruct (zoom_levels Sample.dirname Sample.bare) as (_ & H & _).
    apply (H FS.ENOENT). reflexivity.
  - destruct (zoom_levels Sample.dirname Sample.broken) as (_ & _ & H & _).
    apply (H ["17"; "old"] "old" FS.ENOENT).
    + reflexivity.
    + right; left; reflexivity.
    + reflexivity.
Defined.

(** A tiles root that can be read, with the directory 17 and a link to
    nowhere: the entries that are directories make [17], and the
    enumeration gives the empty list. *)
Lemma levels_lost_to_a_link :
  let root := tilesDir Sample.dirname in
  FS.readdirSync (fs Sample.broken) root = inr ["17"; "old"] /\
  filter (is_directory (fs Sample.broken) root) ["17"; "old"] = ["17"] /\
  map JS.parseInt ["17"] = [JS.Int 17] /\
  fst (getAvailableZoomLevels Sample.dirname Sample.broken) = [] /\
  fst (getAvailableZoomLevels Sample.dirname Sample.broken) <> [JS.Int 17].
Proof.
  repeat split; try reflexivity. discriminate.
Qed.

(** The static handler passes GET /18/131072/131072.png on when the
    public directory is empty, also when the zoom is sent as %318, and
    serves it when a file is there; a capture that cannot be decoded
    ends in the error middleware. *)
Lemma static_comes_first_sample :
  app Sample.dirname Sample.dirname None
      (Request GET "/18/131072/131072.png") Sample.plain
    = tileHandler Sample.dirname (Sample.tile "png") (cors fresh) Sample.plain /\
  app Sample.dirname Sample.dirname None
      (Request GET "/%318/131072/131072.png") Sample.plain
    = tileHandler Sample.dirname (Sample.tile "png") (cors fresh) Sample.plain /\
  body (fst (app Sample.dirname Sample.dirname None
               (Request GET "/18/131072/131072.png") Sample.shadowed))
    = FileBody Sample.other /\
  app Sample.dirname Sample.dirname None
      (Request GET "/18/131072/%zz.png") Sample.plain
    = errorHandler "Failed to decode param '%zz'" (cors fresh) Sample.plain.
Proof.
  split; [|split; [|split]].
  - destruct (static_comes_first Sample.dirname Sample.dirname None
                (Request GET "/18/131072/131072.png") Sample.plain eq_refl)
      as (_ & _ & H & _).
    apply (H (Sample.tile "png")); reflexivity.
  - destruct (static_comes_first Sample.dirname Sample.dirname None
                (Request GET "/%318/131072/131072.png") Sample.plain eq_refl)
      as (_ & _ & H & _).
    apply (H (Params "%318" "131072" "131072" "png")); reflexivity.
  - destruct (static_comes_first Sample.dirname Sample.dirname None
                (Request GET "/18/131072/131072.png") Sample.shadowed eq_refl)
      as (_ & H & _).
    apply (H "/18/131072/131072.png" Sample.other); reflexivity.
  - destruct (static_comes_first Sample.dirname Sample.dirname None
                (Request GET "/18/131072/%zz.png") Sample.plain eq_refl)
      as (_ & _ & _ & H & _).
    apply (H (Params "18" "131072" "%zz" "png") "%zz"); reflexivity.
Defined.

(** A path of the tile form is answered by the static handler when the
    public directory holds a file there: the tile handler would have
    sent the tile, the client receives the public file. *)
Lemma tile_path_served_by_static :
  let req := Request GET "/18/131072/131072.png" in
  matchTile (url req) = Some (Sample.tile "png") /\
  decodeParams (Sample.tile "png") = inr (Sample.tile "png") /\
  body (fst (app Sample.dirname Sample.dirname None req Sample.shadowed))
    = FileBody Sample.other /\
  body (fst (tileHandler Sample.dirname (Sample.tile "png") (cors fresh)
               Sample.shadowed))
    = FileBody Sample.png /\
  fst (app Sample.dirname Sample.dirname None req Sample.shadowed)
    <> fst (tileHandler Sample.dirname (Sample.tile "png") (cors fresh)
              Sample.shadowed).
Proof.
  repeat split; try reflexivity. discriminate.
Qed.

(** PORT unset, empty, and set to 8080. *)
Lemma port_default_sample :
  PORT None = JS.VNumber (JS.Int 3000) /\
  PORT (Some "") = JS.VNumber (JS.Int 3000) /\
  PORT (Some "8080") = JS.VString "8080".
Proof.
  split; [|split].
  - apply (port_default None). left. reflexivity.
  - apply (port_default (Some "")). right. reflexivity.
  - apply (port_default (Some "8080")); [reflexivity|discriminate].
Defined.

(** PORT=abc is not a number, and the port is then abc, not 3000: the
    service page advertises http://localhost:abc/. *)
Lemma port_invalid_kept :
  JS.parseInt "abc" = JS.NaN /\
  PORT (Some "abc") = JS.VString "abc" /\
  PORT (Some "abc") <> JS.VNumber (JS.Int 3000) /\
  exists rest,
    body (fst (rootHandler Sample.dirname (Some "abc") fresh Sample.plain))
    = JsonBody
        (JObj
           (("name", JStr "Local Tile Server") ::
            ("version", JStr "1.0.0") ::
            ("description", JStr "Serving tiles from tiles/18 directory") ::
            ("usage",
             JObj (("tile_url",
                    JStr "http://localhost:abc/{z}/{x}/{y}.{format}") :: rest))
            :: [("available_zoom_levels",
                 JArr [JNum 17; JNum 18; JNum 20])])).
Proof.
  repeat split; try discriminate. eexists. reflexivity.
Qed.

(** GET /18/131072/131072.xyz on the sample pyramid, through [cors()]. *)
Lemma unknown_format_served_sample :
  let res' :=
    fst (tileHandler Sample.dirname (Sample.tile "xyz") (cors fresh)
           Sample.plain) in
  status res' = 200 /\
  body res' = FileBody Sample.png /\
  getHeader "Content-Type" res' = None.
Proof.
  apply (unknown_format_served Sample.dirname (Sample.tile "xyz") (cors fresh)
           Sample.plain Sample.png);
    solve [reflexivity | discriminate].
Defined.

(** Three requests for tiles of a format the table does not have.  GET
    /18/131072/locked.xyz: the file exists and cannot be opened, the
    answer is 500.  GET /18/131072/.hidden.xyz: the file can be read,
    its name starts with a dot, the answer is 500.  GET
    /18/131072/131072.constructor: the lookup finds the function every
    object inherits under that name, and the handler stores it as the
    Content-Type of a response that had none. *)
Lemma unknown_format_not_as_claimed :
  (documented_mime (JS.toLowerCase (format (Sample.locked "xyz"))) = None /\
   FS.resolve (fs Sample.plain) (tilePath Sample.dirname (Sample.locked "xyz"))
     = inr (FS.File Sample.png false) /\
   let res' :=
     fst (tileHandler Sample.dirname (Sample.locked "xyz") fresh Sample.plain) in
   status res' = 500 /\
   status res' <> 200 /\
   body res' <> FileBody Sample.png) /\
  (FS.resolve (fs Sample.plain) (tilePath Sample.dirname (Sample.dotted "xyz"))
     = inr (FS.File Sample.png true) /\
   let res' :=
     fst (tileHandler Sample.dirname (Sample.dotted "xyz") fresh Sample.plain) in
   status res' = 500 /\
   body res' <> FileBody Sample.png) /\
  (documented_mime (JS.toLowerCase (format (Sample.tile "constructor"))) = None /\
   FS.resolve (fs Sample.plain)
     (tilePath Sample.dirname (Sample.tile "constructor"))
     = inr (FS.File Sample.png true) /\
   getContentType "constructor" = JS.VFunction "Object" /\
   let res' :=
     fst (tileHandler Sample.dirname (Sample.tile "constructor") fresh
            Sample.plain) in
   status res' = 200 /\
   getHeader "Content-Type" fresh = None /\
   getHeader "Content-Type" res' = Some (JS.VFunction "Object") /\
   getHeader "Content-Type" res' <> getHeader "Content-Type" fresh).
Proof.
  split; [|split]; repeat split; try reflexivity; discriminate.
Qed.

(** The other lower-case name every object answers to. *)
Lemma proto_is_truthy :
  getContentType "__proto__" = JS.VObject "Object" /\
  JS.truthy (getContentType "__proto__") = true /\
  JS.show (getContentType "constructor") = "function Object() { [native code] }".
Proof.
  repeat split; reflexivity.
Qed.



(** PNG and png on the sample pyramid, where both files exist. *)
Lemma content_type_ignores_case_sample :
  getContentType "PNG" = JS.VString "image/png" /\
  getHeader "Content-Type"
    (fst (tileHandler Sample.dirname (Sample.tile "PNG") fresh Sample.plain))
  = getHeader "Content-Type"
    (fst (tileHandler Sample.dirname (Sample.tile "png") fresh Sample.plain)) /\
  getHeader "Content-Type"
    (fst (tileHandler Sample.dirname (Sample.tile "PNG") fresh Sample.plain))
  = Some (JS.VString "image/png").
Proof.
  destruct (content_type_ignores_case Sample.dirname "PNG" "image/png" eq_refl)
    as (H1 & _ & H & _).
  split; [exact H1|].
  destruct (H (Sample.tile "PNG") fresh Sample.plain Sample.plain eq_refl eq_refl)
    as (H2 & H3).
  split; [exact H2|]. apply H3. reflexivity.
Defined.

(** Level 17 of the sample pyramid: two directories, both named. *)
Lemma sample_is_complete_sample :
  2 = Z.of_nat (List.length [JStr "65536"; JStr "65537"]) /\
  exists level xDirs,
    In level (fst (getAvailableZoomLevels Sample.dirname Sample.plain)) /\
    "17" = JS.toString level /\
    directories (fs Sample.plain) (levelDir Sample.dirname level) = inr xDirs /\
    [JStr "65536"; JStr "65537"] = map JStr xDirs.
Proof.
  eapply (sample_is_complete Sample.dirname fresh Sample.plain _
            [ ("x_directories", JNum 2);
              ("sample_x_dirs", JArr [JStr "65536"; JStr "65537"]) ]
            "17" 2 [JStr "65536"; JStr "65537"]);
    reflexivity.
Defined.

(** The same request twice on the sample pyramid, and once more in a
    world that differs by its console only. *)
Lemma tile_requests_repeatable_sample :
  let first :=
    tileHandler Sample.dirname (Sample.tile "png") fresh Sample.plain in
  fst (tileHandler Sample.dirname (Sample.tile "png") fresh (snd first))
    = fst first /\
  fst (tileHandler Sample.dirname (Sample.tile "png") fresh
         (MkWorld (fs Sample.plain) [Log "earlier request"] "later" (7, 0)))
    = fst first /\
  console (snd first) <> console Sample.plain.
Proof.
  destruct (tile_requests_repeatable Sample.dirname (Sample.tile "png") fresh
              Sample.plain) as (_ & _ & H & H').
  split; [exact H'|]. split; [apply H; reflexivity|discriminate].
Defined.

(* ================================================================== *)
(** * Further properties of the handlers                                *)
(* ================================================================== *)

Section Further.

Variable dirname : Posix.path.
Variable cwd : Posix.path.
Variable env_PORT : option string.

(** ** The tile handler, branch by branch *)

(** X1: a tile request is answered with 404, 200 or 500 and nothing
    else: 404 exactly when [fs.access] fails (nothing is at the path, or
    a directory on the way cannot be searched), 200 exactly when
    [res.sendFile] transmits the file, 500 exactly when something is
    there and [res.sendFile] reports an error.  At a path that [send]
    takes as it is, 200 means a regular file that can be opened; a tile
    whose name starts with a dot never gets 200. *)
Theorem tile_status_cases (p : params) (res : response) (w : World) :
  status res = 200 ->
  let res' := fst (tileHandler dirname p res w) in
  let path := tilePath dirname p in
  (status res' = 404 <-> FS.access (fs w) path = false) /\
  (status res' = 200 <->
     FS.access (fs w) path = true /\
     exists content, sendFile GET (fs w) path = Sent content) /\
  (status res' = 500 <->
     FS.access (fs w) path = true /\
     exists message announced,
       sendFile GET (fs w) path = NotSent message announced) /\
  (status res' = 404 \/ status res' = 200 \/ status res' = 500) /\
  (sendable path = true ->
   (status res' = 200 <->
    exists content, FS.resolve (fs w) path = inr (FS.File content true))) /\
  (Send.hidden (last path "") = true -> status res' <> 200).
Proof.
  intros Hs res' path.
  assert ((status res' = 404 <-> FS.access (fs w) path = false) /\
          (status res' = 200 <->
             FS.access (fs w) path = true /\
             exists content, sendFile GET (fs w) path = Sent content) /\
          (status res' = 500 <->
             FS.access (fs w) path = true /\
             exists message announced,
               sendFile GET (fs w) path = NotSent message announced) /\
          (status res' = 404 \/ status res' = 200 \/ status res' = 500))
    as (H404 & H200 & H500 & Hall).
  { subst res' path.
    rewrite tileHandler_response, tileRoute_response.
    destruct (FS.access (fs w) (tilePath dirname p)) eqn:Ha.
    - cbv zeta.
      destruct (sendFile GET (fs w) (tilePath dirname p))
        as [content|message announced] eqn:Hr.
      + unfold send_bytes, announce. cbn [status].
        rewrite status_prepared, Hs.
        repeat split; try discriminate; eauto.
        intros (_ & m & a & E). discriminate.
      + unfold send_json, set_status. cbn [status].
        repeat split; try discriminate; eauto.
        intros (_ & c & E). discriminate.
    - unfold send_json, set_status. cbn [status].
      repeat split; try discriminate; auto.
      + intros (E & _). discriminate.
      + intros (E & _). discriminate. }
  split; [exact H404|]. split; [exact H200|]. split; [exact H500|].
  split; [exact Hall|]. split.
  - intros Hp. rewrite H200. split.
    + intros (_ & content & E). exists content.
      now apply sendFile_sent.
    + intros (content & E).
      destruct (sendFile_readable _ _ _ Hp E) as [Ha Hr]. eauto.
  - intros Hh E. apply H200 in E. destruct E as (_ & content & E).
    destruct (sendFile_hidden GET (fs w) path Hh) as (m & a & E').
    congruence.
Qed.


(** ** Paths that leave the tiles root *)

Lemma join_tiles_up (rest : list string) :
  Posix.join dirname ("tiles" :: ".." :: rest) = Posix.join dirname rest.
Proof. reflexivity. Qed.

(** X3: the parameters are joined to the tiles root as they come, so a
    zoom of [..] addresses the directory of the program itself: the file
    <dirname>/<x>/<y>.<format>, which is no tile, is sent with status
    200 when it is a regular file that can be read, at a path that
    [send] takes as it is (its name does not start with a dot). *)
Theorem parent_zoom_leaves_tiles_root (px py pf : string) (res : response)
    (w : World) (content : FS.bytes) :
  status res = 200 ->
  sendable (Posix.join dirname [px; py ++ "." ++ pf]) = true ->
  FS.resolve (fs w) (Posix.join dirname [px; py ++ "." ++ pf])
    = inr (FS.File content true) ->
  let res' := fst (tileHandler dirname (Params ".." px py pf) res w) in
  tilePath dirname (Params ".." px py pf)
    = Posix.join dirname [px; py ++ "." ++ pf] /\
  status res' = 200 /\
  body res' = FileBody content.
Proof.
  intros Hs Hp Hf res'. subst res'.
  assert (tilePath dirname (Params ".." px py pf)
          = Posix.join dirname [px; py ++ "." ++ pf]) as E
    by (unfold tilePath; cbn [z x y format]; apply join_tiles_up).
  split; [exact E|].
  rewrite <- E in Hf, Hp.
  destruct (sendFile_readable _ _ _ Hp Hf) as [Ha Hr].
  rewrite tileHandler_response, tileRoute_response, Ha, Hr. cbv zeta.
  split; [|reflexivity].
  unfold send_bytes, announce. cbn [status].
  rewrite <- Hs. apply status_prepared.
Qed.

(** ** When a Content-Type is set *)

Lemma truthy_documented (f : string) :
  documented_mime (JS.toLowerCase f) <> None ->
  JS.truthy (getContentType f) = true.
Proof.
  destruct (documented_mime (JS.toLowerCase f)) as [mime|] eqn:E;
    [intros _|congruence].
  rewrite (getContentType_documented _ _ E).
  exact (documented_mime_nonempty _ _ E).
Qed.

Lemma getContentType_inherited (f : string) :
  JS.toLowerCase f = "constructor" \/ JS.toLowerCase f = "__proto__" ->
  JS.truthy (getContentType f) = true.
Proof.
  unfold getContentType. intros [-> | ->]; reflexivity.
Qed.

(** X4: the lookup [types[format.toLowerCase()]] answers with something
    truthy exactly for the five keys of the table, in any letter case,
    and for the two lower-case names every object inherits, constructor
    and __proto__; for a path that leads somewhere the handler sets the
    Content-Type to that answer in exactly those cases and leaves the
    header alone in all others. *)
Theorem content_type_set_exactly_when (f : string) :
  (JS.truthy (getContentType f) = true <->
   documented_mime (JS.toLowerCase f) <> None \/
   JS.toLowerCase f = "constructor" \/ JS.toLowerCase f = "__proto__") /\
  (forall p res w,
     format p = f ->
     FS.access (fs w) (tilePath dirname p) = true ->
     getHeader "Content-Type" (fst (tileHandler dirname p res w)) =
     if JS.truthy (getContentType f) then Some (getContentType f)
     else getHeader "Content-Type" res).
Proof.
  split.
  - split.
    + intros Ht.
      destruct (documented_mime (JS.toLowerCase f)) as [mime|] eqn:Ed;
        [left; discriminate|right].
      destruct (String.eqb_spec (JS.toLowerCase f) "constructor") as [|Nc];
        [now left|].
      destruct (String.eqb_spec (JS.toLowerCase f) "__proto__") as [|Np];
        [now right|].
      rewrite (getContentType_unknown f Ed Nc Np) in Ht. discriminate.
    + intros [H|H]; [now apply truthy_documented|now apply getContentType_inherited].
  - intros p res w Hf Ha.
    rewrite tileHandler_response, tileRoute_response, Ha, Hf. cbv zeta.
    destruct (JS.truthy (getContentType f));
      destruct (sendFile GET (fs w) (tilePath dirname p)) as [c|m []];
      rewrite ?getHeader_send_bytes, ?getHeader_send_json,
              ?getHeader_set_status, ?getHeader_announce,
              !getHeader_setHeader; reflexivity.
Qed.

(** ** More on the zoom levels *)

(** X5: the levels do not depend on the order in which the system lists
    the tiles root: two file systems whose tiles roots hold the same
    directory names, in any order, have the same list of levels. *)
Theorem levels_ignore_listing_order (w w' : World) (dirs dirs' : list string) :
  directories (fs w) (tilesDir dirname) = inr dirs ->
  directories (fs w') (tilesDir dirname) = inr dirs' ->
  Permutation dirs dirs' ->
  fst (getAvailableZoomLevels dirname w)
    = fst (getAvailableZoomLevels dirname w').
Proof.
  intros Hd Hd' Hp.
  destruct (levels_of_directories dirname w dirs Hd) as [Hs Hperm].
  destruct (levels_of_directories dirname w' dirs' Hd') as [Hs' Hperm'].
  apply sorted_unique; auto.
  rewrite <- Hperm, <- Hperm'.
  apply Permutation_filter'. now apply Permutation_map.
Qed.

Lemma number_eq_dec (a b : JS.number) : {a = b} + {a <> b}.
Proof. decide equality; [apply Z.eq_dec|apply Bool.bool_dec]. Defined.

(** X6: nothing is merged: a level occurs in the result as many times
    as there are directories whose names read as that number (18, 018
    and 18abc make three 18s), NaN never occurs, and a number occurs
    only if some directory name reads as it. *)
Theorem levels_keep_duplicates (w : World) (dirs : list string) :
  directories (fs w) (tilesDir dirname) = inr dirs ->
  let levels := fst (getAvailableZoomLevels dirname w) in
  (forall n,
     count_occ number_eq_dec levels (JS.Int n)
     = count_occ number_eq_dec (map JS.parseInt dirs) (JS.Int n)) /\
  ~ In JS.NaN levels /\
  (forall v, In v levels -> exists d, In d dirs /\ JS.parseInt d = v) /\
  List.length levels
    = List.length (filter (fun d => is_number (JS.parseInt d)) dirs).
Proof.
  intros Hd levels.
  destruct (levels_of_directories dirname w dirs Hd) as [_ Hp].
  fold levels in Hp. split; [|split; [|split]].
  - intros n. rewrite (Permutation_count_occ number_eq_dec) in Hp.
    rewrite <- Hp. clear.
    induction (map JS.parseInt dirs) as [|v r IH]; [reflexivity|].
    destruct v as [|a|s]; simpl.
    + rewrite IH. now destruct (number_eq_dec JS.NaN (JS.Int n)).
    + destruct (number_eq_dec (JS.Int a) (JS.Int n)); now rewrite IH.
    + destruct (number_eq_dec (JS.Infinity s) (JS.Int n)); now rewrite IH.
  - intros Hin. apply (Permutation_in _ (Permutation_sym Hp)) in Hin.
    apply filter_In in Hin. destruct Hin as [_ Hn]. discriminate.
  - intros v Hin. apply (Permutation_in _ (Permutation_sym Hp)) in Hin.
    apply filter_In in Hin. destruct Hin as [Hin _].
    apply in_map_iff in Hin. destruct Hin as [d [Hv Hdin]]. now exists d.
  - rewrite <- (Permutation_length Hp). clear.
    induction dirs as [|d r IH]; [reflexivity|]. simpl.
    destruct (is_number (JS.parseInt d)); simpl; now rewrite IH.
Qed.

(** ** More on tiles-info *)

Lemma keys_assign (o : list (string * json)) (k : string) (v : json) :
  map fst (assign o k v) =
  if existsb (String.eqb k) (map fst o) then map fst o
  else (map fst o ++ [k])%list.
Proof.
  induction o as [|[k0 v0] r IH]; simpl.
  - reflexivity.
  - rewrite (String.eqb_sym k k0).
    destruct (String.eqb_spec k0 k) as [->|N]; simpl; [reflexivity|].
    rewrite IH. now destruct (existsb (String.eqb k) (map fst r)).
Qed.

Lemma NoDup_assign (o : list (string * json)) (k : string) (v : json) :
  NoDup (map fst o) -> NoDup (map fst (assign o k v)).
Proof.
  intros Hn. rewrite keys_assign.
  destruct (existsb (String.eqb k) (map fst o)) eqn:E; [exact Hn|].
  apply NoDup_app; [exact Hn|repeat constructor; intros []|].
  intros a Ha [Ek|[]]. subst a.
  assert (existsb (String.eqb k) (map fst o) = true) as E'
    by (apply existsb_exists; exists k; split; [exact Ha|apply String.eqb_refl]).
  congruence.
Qed.

Lemma NoDup_fold_assign (entry : JS.number -> json) (levels : list JS.number)
    (o : list (string * json)) :
  NoDup (map fst o) ->
  NoDup (map fst
           (fold_left (fun o level => assign o (JS.toString level) (entry level))
                      levels o)).
Proof.
  revert o. induction levels as [|level rest IH]; intros o Hn; simpl.
  - exact Hn.
  - apply IH. now apply NoDup_assign.
Qed.

Lemma member_keys (o : list (string * json)) (k : string) :
  In k (map fst o) <-> member o k <> None.
Proof.
  induction o as [|[k0 v0] r IH]; simpl.
  - split; [intros []|congruence].
  - destruct (String.eqb_spec k0 k) as [->|N].
    + split; [discriminate|now left].
    + rewrite <- IH. split; [intros [E|H]; [contradiction|exact H]|now right].
Qed.

(** X7: the structure of the tiles-info response has one member per
    distinct level: its keys are the names [toString] gives the levels
    (their decimal form, for an integer below 10^21), each
    once, even when the list of levels repeats a number. *)
Theorem structure_keys_distinct (res : response) (w : World)
    (structure : list (string * json)) :
  let res' := fst (tilesInfoHandler dirname res w) in
  let levels := fst (getAvailableZoomLevels dirname w) in
  body res' =
    JsonBody
      (JObj [ ("tiles_directory", JStr (Posix.render (tilesDir dirname)));
              ("available_levels", JArr (map json_of_number levels));
              ("structure", JObj structure) ]) ->
  NoDup (map fst structure) /\
  (forall k, In k (map fst structure) <->
             exists level, In level levels /\ k = JS.toString level) /\
  (List.length structure <= List.length levels)%nat.
Proof.
  intros res' levels Hb. subst res'.
  rewrite tilesInfoHandler_response in Hb. cbv zeta in Hb. fold levels in Hb.
  injection Hb as Hb. subst structure.
  assert (NoDup (map fst
            (fold_left
               (fun o level =>
                  assign o (JS.toString level)
                    (level_entry (directories (fs w) (levelDir dirname level))))
               levels []))) as Hn
    by (apply (NoDup_fold_assign
                 (fun level => level_entry
                    (directories (fs w) (levelDir dirname level))));
        constructor).
  split; [exact Hn|]. split.
  - intros k. rewrite member_keys, structure_member. fold levels.
    rewrite <- existsb_key.
    destruct (existsb _ levels); split; congruence.
  - rewrite <- (length_map fst), <- (length_map JS.toString levels).
    apply NoDup_incl_length; [exact Hn|].
    intros k Hk. apply member_keys in Hk.
    rewrite structure_member in Hk. fold levels in Hk.
    destruct (existsb _ levels) eqn:E; [|congruence].
    apply existsb_key in E. destruct E as [level [Hin ->]].
    now apply in_map.
Qed.

(** X8: parsing and printing fit together for the integers that a
    double holds exactly (below 2^53 in absolute value): when the tiles
    root holds a directory whose name is the decimal form of such an
    integer, that integer is among the levels and its entry in the
    structure is the listing of that very directory.  Beyond, the two
    part ways: 9007199254740993 reads as 9007199254740992, and 10^21
    prints as 1e+21. *)
Theorem decimal_directory_is_described (res : response) (w : World)
    (dirs : list string) (n : Z) (structure : list (string * json)) :
  let res' := fst (tilesInfoHandler dirname res w) in
  let levels := fst (getAvailableZoomLevels dirname w) in
  safe_integer n ->
  directories (fs w) (tilesDir dirname) = inr dirs ->
  In (JS.toString (JS.Int n)) dirs ->
  body res' =
    JsonBody
      (JObj [ ("tiles_directory", JStr (Posix.render (tilesDir dirname)));
              ("available_levels", JArr (map json_of_number levels));
              ("structure", JObj structure) ]) ->
  JS.parseInt (JS.toString (JS.Int n)) = JS.Int n /\
  In (JS.Int n) levels /\
  member structure (JS.toString (JS.Int n)) =
    Some (level_entry
            (directories (fs w)
               (Posix.join (tilesDir dirname) [JS.toString (JS.Int n)]))) /\
  JS.parseInt "9007199254740993" = JS.Int 9007199254740992 /\
  JS.toString (JS.parseInt "1000000000000000000000") = "1e+21".
Proof.
  intros res' levels Hn Hd Hin Hb. subst res'.
  assert (In (JS.Int n) levels) as Hl
    by (apply (canonical_directory_found dirname w dirs n Hn Hd Hin)).
  split; [now apply parseInt_toString|]. split; [exact Hl|].
  split; [|split; reflexivity].
  rewrite tilesInfoHandler_response in Hb. cbv zeta in Hb. fold levels in Hb.
  injection Hb as Hb. subst structure.
  rewrite structure_member. fold levels.
  assert (existsb (fun l => (JS.toString l =? JS.toString (JS.Int n))%string)
            levels = true) as ->
    by (apply existsb_key; eauto).
  reflexivity.
Qed.

(** ** The two endpoints that list the levels *)

Lemma rootHandler_response (res : response) (w : World) :
  exists usage,
    fst (rootHandler dirname env_PORT res w) =
    send_json
      (JObj
         [ ("name", JStr "Local Tile Server");
           ("version", JStr "1.0.0");
           ("description", JStr "Serving tiles from tiles/18 directory");
           ("usage", usage);
           ("available_zoom_levels",
            JArr (map json_of_number
                    (fst (getAvailableZoomLevels dirname w)))) ])
      res.
Proof.
  unfold rootHandler, bind.
  destruct (getAvailableZoomLevels dirname w) as [levels w1]; simpl.
  eexists. reflexivity.
Qed.

(** X9: the service page and tiles-info report the same levels: for one
    state of the file system, the member available_zoom_levels of the
    one and the member available_levels of the other are the same array,
    whatever the console and the clock are. *)
Theorem endpoints_agree_on_levels (res res' : response) (w w' : World) :
  fs w = fs w' ->
  exists (service info : list (string * json)) (levels : json),
    body (fst (rootHandler dirname env_PORT res w)) = JsonBody (JObj service) /\
    body (fst (tilesInfoHandler dirname res' w')) = JsonBody (JObj info) /\
    member service "available_zoom_levels" = Some levels /\
    member info "available_levels" = Some levels /\
    levels = JArr (map json_of_number (fst (getAvailableZoomLevels dirname w))).
Proof.
  intros Hfs.
  destruct (rootHandler_response res w) as [usage Hr].
  rewrite Hr, tilesInfoHandler_response. cbv zeta.
  destruct (reads_only_getAvailableZoomLevels dirname) as [_ Hval].
  rewrite <- (Hval w w' Hfs).
  do 3 eexists. repeat split.
Qed.

Lemma getAvailableZoomLevels_fails (w : World) (e : FS.errno) :
  directories (fs w) (tilesDir dirname) = inl e ->
  getAvailableZoomLevels dirname w =
  ([], MkWorld (fs w)
         (console w ++ [Error ("Error reading tiles directory: "
                               ++ FS.message e)])
         (now w) (uptime w)).
Proof.
  intros He. unfold getAvailableZoomLevels, bind, fs_directories; simpl.
  now rewrite He.
Qed.

(** X10: a tiles root that cannot be read fails neither endpoint: the
    enumeration logs one error line and yields no level, tiles-info
    answers with an empty list and an empty structure, the service page
    with an empty list, and both keep the status they were given. *)
Theorem unreadable_root_empties_endpoints (res : response) (w : World)
    (e : FS.errno) :
  directories (fs w) (tilesDir dirname) = inl e ->
  fst (getAvailableZoomLevels dirname w) = [] /\
  (exists text,
     console (snd (getAvailableZoomLevels dirname w))
     = (console w ++ [Error text])%list) /\
  fst (tilesInfoHandler dirname res w) =
    send_json
      (JObj [ ("tiles_directory", JStr (Posix.render (tilesDir dirname)));
              ("available_levels", JArr []);
              ("structure", JObj []) ])
      res /\
  (exists service,
     fst (rootHandler dirname env_PORT res w) = send_json (JObj service) res /\
     member service "available_zoom_levels" = Some (JArr [])).
Proof.
  intros He. pose proof (getAvailableZoomLevels_fails w e He) as Hg.
  split; [now rewrite Hg|].
  split; [rewrite Hg; eexists; reflexivity|]. split.
  - rewrite tilesInfoHandler_response, Hg. reflexivity.
  - destruct (rootHandler_response res w) as [usage Hr].
    rewrite Hr, Hg. eexists. split; reflexivity.
Qed.

(** ** Dispatch, continued *)

(** A request with a method that no route handles: the static handler
    passes it on, and the method plays no part in what follows. *)
Lemma app_other_method (req : request) (w : World) :
  verb req <> GET -> verb req <> HEAD -> verb req <> OPTIONS ->
  app dirname cwd env_PORT req w =
  match matchTile (url req) with
  | Some raw =>
      match decodeParams raw with
      | inl capture => errorHandler (decode_failure capture) (cors fresh) w
      | inr _ => notFound req (cors fresh) w
      end
  | None => notFound req (cors fresh) w
  end.
Proof.
  intros Hg Hh Ho. rewrite (app_after_static dirname cwd env_PORT req w Ho).
  assert (handles_get (verb req) = false) as Hm
    by (destruct (verb req); try reflexivity; contradiction).
  assert (forall res, for_method (verb req) res = res) as Hf
    by (intros res; destruct (verb req); try reflexivity; contradiction).
  unfold serveStatic, routes. rewrite Hm. simpl. rewrite Hf.
  destruct (matchTile (url req)) as [raw|]; [|reflexivity].
  destruct (decodeParams raw); reflexivity.
Qed.

(** X11: the routes are registered with [app.get] only, and Express
    decodes what a route captures before it looks at the method: a
    request with any method other than GET, HEAD and OPTIONS is answered
    with the 404 of the last middleware, nothing read or logged, also
    at the path of an existing tile, unless its path is of the tile form
    with a capture that cannot be decoded, which the error middleware
    answers with 500. *)
Theorem other_methods_get_404 (req : request) (w : World) :
  verb req <> GET -> verb req <> HEAD -> verb req <> OPTIONS ->
  (forall raw capture,
     matchTile (url req) = Some raw -> decodeParams raw = inl capture ->
     app dirname cwd env_PORT req w
       = errorHandler (decode_failure capture) (cors fresh) w /\
     status (fst (app dirname cwd env_PORT req w)) = 500) /\
  (matchTile (url req) = None \/
   (exists raw p, matchTile (url req) = Some raw /\ decodeParams raw = inr p) \/
   lacks "%" (url req) = true ->
   app dirname cwd env_PORT req w =
   (send_json
      (JObj [ ("error", JStr "Not found");
              ("message", JStr ("Path " ++ url req ++ " not found")) ])
      (set_status 404 (cors fresh)), w)).
Proof.
  intros Hg Hh Ho. rewrite (app_other_method req w Hg Hh Ho). split.
  - intros raw capture -> ->. split; reflexivity.
  - intros [-> | [(raw & p & -> & ->) | Hl]]; try reflexivity.
    destruct (matchTile (url req)) as [raw|] eqn:Hm; [|reflexivity].
    now rewrite (matchTile_plain _ raw Hm Hl).
Qed.

(** ** What every response and every request have in common *)

(** Setting a header leaves the others as they are. *)
Lemma getHeader_other (name name' : string) (v : JS.value) (res : response) :
  JS.toLowerCase name <> JS.toLowerCase name' ->
  getHeader name (setHeader name' v res) = getHeader name res.
Proof.
  intros N. rewrite getHeader_setHeader.
  destruct (String.eqb_spec (JS.toLowerCase name') (JS.toLowerCase name));
    [congruence|reflexivity].
Qed.

Lemma tileRoute_keeps_header (name : string) (m : method) (p : params)
    (res : response) (w : World) :
  JS.toLowerCase name <> "content-type" ->
  JS.toLowerCase name <> "cache-control" ->
  getHeader name (fst (tileRoute dirname m p res w)) = getHeader name res.
Proof.
  intros Nt Nc. rewrite tileRoute_response.
  destruct (FS.access (fs w) (tilePath dirname p)); [|reflexivity].
  cbv zeta.
  destruct (sendFile m (fs w) (tilePath dirname p)) as [c|msg []];
    rewrite ?getHeader_send_bytes, ?getHeader_send_json, ?getHeader_set_status,
            ?getHeader_announce, getHeader_other by exact Nc;
    destruct (JS.truthy (getContentType (format p)));
    rewrite ?getHeader_other by exact Nt; reflexivity.
Qed.

Lemma redirect_keeps_header (name location : string) (res : response) :
  JS.toLowerCase name <> "location" ->
  JS.toLowerCase name <> "content-type" ->
  JS.toLowerCase name <> "content-security-policy" ->
  JS.toLowerCase name <> "x-content-type-options" ->
  getHeader name (redirect location res) = getHeader name res.
Proof.
  intros Nl Nt Nc Nx. unfold redirect. cbv zeta.
  change (getHeader name
            (setHeader "Location" (JS.VString location)
               (setHeader "X-Content-Type-Options" (JS.VString "nosniff")
                  (setHeader "Content-Security-Policy"
                     (JS.VString "default-src 'none'")
                     (setHeader "Content-Type"
                        (JS.VString "text/html; charset=UTF-8") res))))
          = getHeader name res).
  rewrite getHeader_other by exact Nl.
  rewrite getHeader_other by exact Nx.
  rewrite getHeader_other by exact Nc.
  now rewrite getHeader_other by exact Nt.
Qed.

(** Whatever the static handler hands over has the headers it was
    given, those of a redirection apart. *)
Lemma serveStatic_keeps_header (name : string) (req : request)
    (res0 : response) (w : World) :
  JS.toLowerCase name <> "location" ->
  JS.toLowerCase name <> "content-type" ->
  JS.toLowerCase name <> "content-security-policy" ->
  JS.toLowerCase name <> "x-content-type-options" ->
  match fst (serveStatic cwd req res0 w) with
  | Served res | Failed _ res => getHeader name res = getHeader name res0
  | Next => True
  end.
Proof.
  intros Nl Nt Nc Nx. unfold serveStatic.
  destruct (negb (handles_get (verb req))); [exact I|].
  destruct (JS.decodeURIComponent (url req)) as [path|]; [|exact I].
  destruct (_ || _); [exact I|]. cbv zeta.
  destruct (if ends_with_slash (url req) then _ else _) as [c| |code msg a];
    simpl.
  - reflexivity.
  - now apply redirect_keeps_header.
  - destruct (code <? 500); simpl; [exact I|]. now destruct a.
Qed.

Lemma routes_keep_header (name : string) (req : request) (res : response)
    (w : World) :
  JS.toLowerCase name <> "content-type" ->
  JS.toLowerCase name <> "cache-control" ->
  getHeader name (fst (routes dirname env_PORT req res w)) = getHeader name res.
Proof.
  intros Nt Nc. unfold routes.
  destruct (matchTile (url req)) as [raw|].
  - destruct (decodeParams raw) as [capture|p]; [reflexivity|].
    destruct (handles_get (verb req)); [|reflexivity].
    now apply tileRoute_keeps_header.
  - destruct (negb (handles_get (verb req))); [reflexivity|].
    destruct (url req =? "/")%string.
    { destruct (rootHandler_response res w) as [usage ->]. reflexivity. }
    destruct (matchLiteral "/health" (url req)); [reflexivity|].
    destruct (matchLiteral "/tiles-info" (url req)); [|reflexivity].
    now rewrite tilesInfoHandler_response.
Qed.

(** X12: [cors()] is the first middleware and no handler removes what it
    sets: every response of the application, the 404s, the 500s, the
    files of the static handler and the answer to a preflight request
    alike, carries Access-Control-Allow-Origin: *. *)
Theorem every_response_allows_any_origin (req : request) (w : World) :
  getHeader "Access-Control-Allow-Origin"
    (fst (app dirname cwd env_PORT req w)) = Some (JS.VString "*").
Proof.
  assert (JS.toLowerCase "Access-Control-Allow-Origin" <> "location") as Nl
    by (vm_compute; discriminate).
  assert (JS.toLowerCase "Access-Control-Allow-Origin" <> "content-type") as Nt
    by (vm_compute; discriminate).
  assert (JS.toLowerCase "Access-Control-Allow-Origin" <> "cache-control") as Nc
    by (vm_compute; discriminate).
  assert (JS.toLowerCase "Access-Control-Allow-Origin"
          <> "content-security-policy") as Np by (vm_compute; discriminate).
  assert (JS.toLowerCase "Access-Control-Allow-Origin"
          <> "x-content-type-options") as Nx by (vm_compute; discriminate).
  destruct (verb req) eqn:Hv;
    try (unfold app; rewrite Hv; reflexivity).
  all: rewrite app_after_static by (rewrite Hv; discriminate).
  all: cbv zeta; cbn [fst]; rewrite getHeader_for_method.
  all: pose proof (serveStatic_keeps_header "Access-Control-Allow-Origin"
                     req (cors fresh) w Nl Nt Np Nx) as Hk.
  all: destruct (fst (serveStatic cwd req (cors fresh) w)) as [res| |msg res];
    [ simpl; rewrite Hk; reflexivity
    | rewrite (routes_keep_header _ _ _ _ Nt Nc); reflexivity
    | unfold errorHandler, bind, console_error, ret; simpl;
      rewrite getHeader_send_json, getHeader_set_status, Hk; reflexivity ].
Qed.

Lemma appends_only_ret {A} (a : A) : appends_only (ret a).
Proof.
  intros w. exists []. destruct w; simpl. now rewrite app_nil_r.
Qed.

Lemma appends_only_bind {A B} (c : IO A) (k : A -> IO B) :
  appends_only c -> (forall a, appends_only (k a)) -> appends_only (bind c k).
Proof.
  intros Hc Hk w. unfold bind. destruct (Hc w) as [l1 E1].
  destruct (c w) as [a w1]; simpl in E1.
  destruct (Hk a w1) as [l2 E2]. exists (l1 ++ l2)%list.
  rewrite E2, E1; simpl. now rewrite app_assoc.
Qed.

Lemma appends_only_log (text : string) : appends_only (console_log text).
Proof. intros w. now exists [Log text]. Qed.

Lemma appends_only_error (text : string) : appends_only (console_error text).
Proof. intros w. now exists [Error text]. Qed.

Lemma appends_only_pure {A} (f : World -> A) : appends_only (fun w => (f w, w)).
Proof.
  intros w. exists []. destruct w; simpl. now rewrite app_nil_r.
Qed.

Lemma appends_only_forEach (levels : list JS.number)
    (structure : list (string * json)) :
  appends_only (forEach_level dirname levels structure).
Proof.
  intros w. rewrite forEach_level_run. exists [].
  destruct w; simpl. now rewrite app_nil_r.
Qed.

Lemma appends_only_static (req : request) (res : response) :
  appends_only (serveStatic cwd req res).
Proof.
  intros w. exists [].
  rewrite (serveStatic_keeps_world cwd req res w).
  destruct w; simpl. now rewrite app_nil_r.
Qed.

Ltac quiet :=
  repeat first
    [ apply appends_only_bind; [ | intros ? ]
    | apply appends_only_ret
    | apply appends_only_log
    | apply appends_only_error
    | apply appends_only_forEach
    | apply appends_only_static
    | apply (appends_only_pure (fun w => FS.access (fs w) _))
    | apply (appends_only_pure (fun w => sendFile _ (fs w) _))
    | apply (appends_only_pure (fun w => directories (fs w) _))
    | match goal with
      | |- appends_only (if ?b then _ else _) => destruct b
      | |- appends_only (match ?s with inl _ => _ | inr _ => _ end) => destruct s
      | |- appends_only (match ?o with Some _ => _ | None => _ end) => destruct o
      | |- appends_only (match ?s with Sent _ => _ | NotSent _ _ => _ end) =>
          destruct s
      | |- appends_only (match ?s with Served _ => _ | Next => _
                                       | Failed _ _ => _ end) => destruct s
      end ].

Lemma appends_only_routes (req : request) (res : response) :
  appends_only (routes dirname env_PORT req res).
Proof.
  unfold routes, errorHandler, notFound, tileRoute, rootHandler,
         tilesInfoHandler, getAvailableZoomLevels, fs_access, fs_sendFile,
         fs_directories.
  quiet.
  unfold healthHandler.
  apply (appends_only_pure
           (fun w => send_json
              (JObj [("status", JStr "healthy"); ("timestamp", JStr (now w));
                     ("uptime", JFloat (fst (uptime w)) (snd (uptime w)))])
              res)).
Qed.

(** X13: no request changes anything but the console: after any request
    the file system and the clock are what they were, and the console
    holds the lines it held, followed by those of the request. *)
Theorem requests_only_log (req : request) (w : World) :
  let after := snd (app dirname cwd env_PORT req w) in
  fs after = fs w /\
  now after = now w /\
  uptime after = uptime w /\
  exists lines, console after = (console w ++ lines)%list.
Proof.
  assert (appends_only (app dirname cwd env_PORT req)) as Happ.
  { unfold app. apply appends_only_bind; [|intros; apply appends_only_ret].
    destruct (verb req); try apply appends_only_ret.
    all: apply appends_only_bind; [apply appends_only_static|].
    all: intros [res| |message res];
      [ apply appends_only_ret
      | apply appends_only_routes
      | unfold errorHandler; quiet ]. }
  destruct (Happ w) as [lines E]. intros after. subst after.
  rewrite E; simpl. repeat split. now exists lines.
Qed.

(** X14: an error of the static handler ends in the error middleware:
    when the path of a GET request, decoded, is that of a file of the
    public directory that cannot be opened, the answer is 500 with the
    error "Internal server error" and the message of the failed open,
    there is one line on the error console, and no route is consulted,
    also when the path is that of an existing tile.  A HEAD request for
    the same path opens nothing and is answered with 200 and no
    body. *)
Theorem static_error_is_500 (req : request) (w : World) (path : string)
    (content : FS.bytes) :
  JS.decodeURIComponent (url req) = Some path ->
  lookable path = true ->
  ends_with_slash (url req) = false ->
  FS.resolve (fs w) (Posix.join (publicDir cwd) [path])
    = inr (FS.File content false) ->
  let answer := app dirname cwd env_PORT req w in
  let message :=
    FS.describe FS.EACCES "open" (Posix.join (publicDir cwd) [path]) in
  (verb req = GET ->
   status (fst answer) = 500 /\
   body (fst answer)
     = JsonBody (JObj [ ("error", JStr "Internal server error");
                        ("message", JStr message) ]) /\
   console (snd answer)
     = (console w ++ [Error ("Server error: " ++ message)])%list) /\
  (verb req = HEAD ->
   status (fst answer) = 200 /\
   body (fst answer) = NoBody /\
   snd answer = w).
Proof.
  intros Hd Hl Hs Hf answer message. subst answer message.
  split; intros Hv.
  - rewrite (app_get dirname cwd env_PORT req w Hv).
    rewrite (serveStatic_lookup cwd req (cors fresh) w path)
      by (try assumption; rewrite Hv; reflexivity).
    cbv zeta. unfold Send.file. rewrite Hf, Hv. simpl.
    repeat split.
  - rewrite (app_after_static dirname cwd env_PORT req w)
      by (rewrite Hv; discriminate).
    rewrite (serveStatic_lookup cwd req (cors fresh) w path)
      by (try assumption; rewrite Hv; reflexivity).
    cbv zeta. unfold Send.file. rewrite Hf, Hv. simpl.
    repeat split.
Qed.

(** ** The tile route and the paths it matches *)

(** X15: the tile route and the template of the 404 body are inverse to
    each other on what the route captures: a path the route matches is
    a slash followed by z/x/y.format for the captures, with at most one
    more slash at the end; the captures are never empty, hold no slash,
    and the last holds no dot; and every such tuple is what the route
    captures from its own path.  The parameters the handler sees are
    the captures decoded: for a path without a percent sign they are
    the captures themselves, so that the path member of the 404 body is
    the requested path without those slashes; with escapes they differ
    (the capture a%20b is the parameter a b). *)
Theorem tile_route_round_trip :
  (forall path raw,
     matchTile path = Some raw ->
     routable raw = true /\
     (path = "/" ++ tile_name raw \/ path = ("/" ++ tile_name raw) ++ "/") /\
     (lacks "%" path = true -> decodeParams raw = inr raw)) /\
  (forall p,
     routable p = true ->
     matchTile ("/" ++ tile_name p) = Some p /\
     matchTile (("/" ++ tile_name p) ++ "/") = Some p) /\
  (forall path raw p w,
     matchTile path = Some raw -> decodeParams raw = inr p ->
     nul_free p = true ->
     FS.access (fs w) (tilePath dirname p) = false ->
     body (fst (routes dirname env_PORT (Request GET path) (cors fresh) w))
     = JsonBody (JObj [ ("error", JStr "Tile not found");
                        ("path", JStr (tile_name p)) ])) /\
  decodeParams (Params "19" "0" "a%20b" "png")
    = inr (Params "19" "0" "a b" "png").
Proof.
  split; [|split; [|split]].
  - intros path raw H.
    destruct (matchTile_sound path raw H) as [Hr Hp].
    split; [exact Hr|]. split; [exact Hp|].
    now apply matchTile_plain.
  - apply matchTile_complete.
  - intros path raw p w Hm Hp _ Ha. unfold routes. cbn [url verb].
    rewrite Hm, Hp. cbn [handles_get].
    now rewrite tileRoute_response, Ha.
  - reflexivity.
Qed.

(** X16: no path matches two routes: a path that the route of the
    service page, of the health check or of tiles-info matches, in any
    letter case and with or without a final slash, is never one the tile
    route matches, and health and tiles-info exclude each other; the
    order of the [app.get] calls decides nothing. *)
Theorem routes_exclude_each_other (path : string) :
  (path = "/" \/ matchLiteral "/health" path = true \/
   matchLiteral "/tiles-info" path = true ->
   matchTile path = None) /\
  (matchLiteral "/health" path = true ->
   matchLiteral "/tiles-info" path = false /\ path <> "/") /\
  (matchLiteral "/tiles-info" path = true -> path <> "/").
Proof.
  split; [|split].
  - intros [-> | [H|H]].
    + reflexivity.
    + apply (literal_not_tile "/health"); [vm_compute; lia ..|exact H].
    + apply (literal_not_tile "/tiles-info"); [vm_compute; lia ..|exact H].
  - intros H. split.
    + unfold matchLiteral in *. apply orb_prop in H.
      destruct H as [H|H]; apply String.eqb_eq in H; rewrite H; reflexivity.
    + intros ->. discriminate.
  - intros H ->. discriminate.
Qed.

End Further.

(* ================================================================== *)
(** * The further properties on the sample deployments                  *)
(* ================================================================== *)

(** A tile, a tile that cannot be opened, a tile whose name starts with
    a dot, a missing tile, and a tile below a directory that cannot be
    searched. *)
Lemma tile_status_cases_sample :
  status (fst (tileHandler Sample.dirname (Sample.tile "png") fresh
                 Sample.plain)) = 200 /\
  status (fst (tileHandler Sample.dirname (Sample.locked "png") fresh
                 Sample.plain)) = 500 /\
  status (fst (tileHandler Sample.dirname (Sample.dotted "png") fresh
                 Sample.plain)) = 500 /\
  status (fst (tileHandler Sample.dirname (Params "19" "0" "0" "png") fresh
                 Sample.plain)) = 404 /\
  status (fst (tileHandler Sample.dirname (Params "18" "0" "0" "png") fresh
                 Scenario.sealed)) = 404.
Proof.
  split; [|split; [|split; [|split]]].
  - destruct (tile_status_cases Sample.dirname (Sample.tile "png") fresh
                Sample.plain eq_refl) as (_ & _ & _ & _ & H & _).
    apply H; [reflexivity|]. exists Sample.png. reflexivity.
  - destruct (tile_status_cases Sample.dirname (Sample.locked "png") fresh
                Sample.plain eq_refl) as (_ & _ & H & _).
    apply H. split; [reflexivity|]. do 2 eexists. reflexivity.
  - destruct (tile_status_cases Sample.dirname (Sample.dotted "png") fresh
                Sample.plain eq_refl) as (_ & _ & H & _).
    apply H. split; [reflexivity|]. do 2 eexists. reflexivity.
  - destruct (tile_status_cases Sample.dirname (Params "19" "0" "0" "png")
                fresh Sample.plain eq_refl) as (H & _).
    apply H. reflexivity.
  - destruct (tile_status_cases Sample.dirname (Params "18" "0" "0" "png")
                fresh Scenario.sealed eq_refl) as (H & _).
    apply H. reflexivity.
Defined.


(** GET /../config/secrets.json is a tile request, and is answered with
    the file beside the tiles root. *)
Lemma parent_zoom_leaves_tiles_root_sample :
  matchTile "/../config/secrets.json"
    = Some (Params ".." "config" "secrets" "json") /\
  tilePath Sample.dirname (Params ".." "config" "secrets" "json")
    = ["srv"; "tileserver"; "config"; "secrets.json"] /\
  status (fst (tileHandler Sample.dirname (Params ".." "config" "secrets" "json")
                 fresh Scenario.exposed)) = 200 /\
  body (fst (tileHandler Sample.dirname (Params ".." "config" "secrets" "json")
               fresh Scenario.exposed)) = FileBody Sample.other.
Proof.
  split; [reflexivity|].
  apply (parent_zoom_leaves_tiles_root Sample.dirname "config" "secrets" "json"
           fresh Scenario.exposed Sample.other); reflexivity.
Defined.

(** Constructor, in capitals, on the sample pyramid. *)
Lemma content_type_set_exactly_when_sample :
  JS.truthy (getContentType "CONSTRUCTOR") = true /\
  getHeader "Content-Type"
    (fst (tileHandler Sample.dirname (Sample.tile "constructor") fresh
            Sample.plain))
    = Some (JS.VFunction "Object") /\
  getHeader "Content-Type"
    (fst (tileHandler Sample.dirname (Sample.tile "xyz") fresh Sample.plain))
    = None.
Proof.
  split; [|split].
  - destruct (content_type_set_exactly_when Sample.dirname "CONSTRUCTOR")
      as ((_ & H) & _).
    apply H. right. left. reflexivity.
  - destruct (content_type_set_exactly_when Sample.dirname "constructor")
      as (_ & H).
    apply (H (Sample.tile "constructor") fresh Sample.plain); reflexivity.
  - destruct (content_type_set_exactly_when Sample.dirname "xyz") as (_ & H).
    apply (H (Sample.tile "xyz") fresh Sample.plain); reflexivity.
Defined.

(** The pyramid listed in two orders. *)
Lemma levels_ignore_listing_order_sample :
  fst (getAvailableZoomLevels Sample.dirname Sample.plain)
    = fst (getAvailableZoomLevels Sample.dirname Scenario.reordered).
Proof.
  apply (levels_ignore_listing_order Sample.dirname Sample.plain
           Scenario.reordered ["20"; "17"; "abc"; "18"]
           (rev ["20"; "17"; "abc"; "18"]));
    [reflexivity | reflexivity | apply Permutation_rev].
Defined.

(** 18abc, 018 and 18 make three levels 18. *)
Lemma levels_keep_duplicates_sample :
  fst (getAvailableZoomLevels Sample.dirname Scenario.doubled)
    = [JS.Int 7; JS.Int 18; JS.Int 18; JS.Int 18] /\
  count_occ number_eq_dec
    (fst (getAvailableZoomLevels Sample.dirname Scenario.doubled)) (JS.Int 18)
    = 3%nat.
Proof.
  split; [reflexivity|].
  destruct (levels_keep_duplicates Sample.dirname Scenario.doubled
              ["18abc"; "7"; "018"; "18"] eq_refl) as (H & _).
  rewrite H. reflexivity.
Defined.

(** Four levels, two keys. *)
Lemma structure_keys_distinct_sample :
  exists structure,
    body (fst (tilesInfoHandler Sample.dirname fresh Scenario.doubled)) =
      JsonBody
        (JObj [ ("tiles_directory", JStr "/srv/tileserver/tiles");
                ("available_levels", JArr [JNum 7; JNum 18; JNum 18; JNum 18]);
                ("structure", JObj structure) ]) /\
    map fst structure = ["7"; "18"] /\
    NoDup (map fst structure) /\
    (List.length structure <= 4)%nat.
Proof.
  eexists. split; [reflexivity|]. split; [reflexivity|].
  destruct (structure_keys_distinct Sample.dirname fresh Scenario.doubled _
              eq_refl) as (H & _ & H').
  split; [exact H|exact H'].
Defined.

(** The directory 7 is level 7, described by its own listing. *)
Lemma decimal_directory_is_described_sample :
  exists structure,
    body (fst (tilesInfoHandler Sample.dirname fresh Scenario.doubled)) =
      JsonBody
        (JObj [ ("tiles_directory", JStr "/srv/tileserver/tiles");
                ("available_levels", JArr [JNum 7; JNum 18; JNum 18; JNum 18]);
                ("structure", JObj structure) ]) /\
    In (JS.Int 7) (fst (getAvailableZoomLevels Sample.dirname Scenario.doubled)) /\
    member structure "7" =
      Some (JObj [ ("x_directories", JNum 1);
                   ("sample_x_dirs", JArr [JStr "1"]) ]).
Proof.
  eexists. split; [reflexivity|].
  destruct (decimal_directory_is_described Sample.dirname fresh Scenario.doubled
              ["18abc"; "7"; "018"; "18"] 7 _ eq_refl eq_refl
              (or_intror (or_introl eq_refl)) eq_refl) as (_ & H & H' & _).
  split; [exact H|exact H'].
Defined.

(** The service page before a request and tiles-info after it. *)
Lemma endpoints_agree_on_levels_sample :
  exists service info,
    body (fst (rootHandler Sample.dirname None fresh Sample.plain))
      = JsonBody (JObj service) /\
    body (fst (tilesInfoHandler Sample.dirname fresh
                 (snd (tileHandler Sample.dirname (Sample.tile "png") fresh
                         Sample.plain))))
      = JsonBody (JObj info) /\
    member service "available_zoom_levels"
      = Some (JArr [JNum 17; JNum 18; JNum 20]) /\
    member info "available_levels"
      = Some (JArr [JNum 17; JNum 18; JNum 20]).
Proof.
  destruct (endpoints_agree_on_levels Sample.dirname None fresh fresh
              Sample.plain
              (snd (tileHandler Sample.dirname (Sample.tile "png") fresh
                      Sample.plain)) eq_refl)
    as (service & info & levels & H1 & H2 & H3 & H4 & ->).
  exists service, info. repeat split; assumption.
Defined.

(** A deployment without a tiles directory. *)
Lemma unreadable_root_empties_endpoints_sample :
  fst (getAvailableZoomLevels Sample.dirname Sample.bare) = [] /\
  fst (tilesInfoHandler Sample.dirname fresh Sample.bare) =
    send_json
      (JObj [ ("tiles_directory", JStr "/srv/tileserver/tiles");
              ("available_levels", JArr []);
              ("structure", JObj []) ])
      fresh.
Proof.
  destruct (unreadable_root_empties_endpoints Sample.dirname None fresh
              Sample.bare FS.ENOENT eq_refl) as (H1 & _ & H2 & _).
  split; [exact H1|exact H2].
Defined.

(** POST to the path of an existing tile, and to a path of the tile
    form with an escape that is none. *)
Lemma other_methods_get_404_sample :
  FS.access (fs Sample.plain) (tilePath Sample.dirname (Sample.tile "png"))
    = true /\
  fst (app Sample.dirname Sample.dirname None
         (Request POST "/18/131072/131072.png") Sample.plain)
  = send_json
      (JObj [ ("error", JStr "Not found");
              ("message", JStr "Path /18/131072/131072.png not found") ])
      (set_status 404 (cors fresh)) /\
  status (fst (app Sample.dirname Sample.dirname None
                 (Request POST "/a/b/%zz.png") Sample.plain)) = 500.
Proof.
  split; [reflexivity|]. split.
  - destruct (other_methods_get_404 Sample.dirname Sample.dirname None
                (Request POST "/18/131072/131072.png") Sample.plain)
      as (_ & H); [discriminate ..|].
    rewrite H; [reflexivity|]. right. right. reflexivity.
  - destruct (other_methods_get_404 Sample.dirname Sample.dirname None
                (Request POST "/a/b/%zz.png") Sample.plain)
      as (H & _); [discriminate ..|].
    apply (H (Params "a" "b" "%zz" "png") "%zz"); reflexivity.
Defined.

(** A public file that cannot be opened, at the path of a tile, and one
    whose name is sent with an escape. *)
Lemma static_error_is_500_sample :
  FS.access (fs Scenario.jammed) (tilePath Sample.dirname (Sample.tile "png"))
    = true /\
  status (fst (app Sample.dirname Sample.dirname None
                 (Request GET "/18/131072/131072.png") Scenario.jammed)) = 500 /\
  body (fst (app Sample.dirname Sample.dirname None
               (Request GET "/a%20b.txt") Scenario.jammed))
    = JsonBody
        (JObj [ ("error", JStr "Internal server error");
                ("message",
                 JStr "EACCES: permission denied, open '/srv/tileserver/public/a b.txt'") ]) /\
  status (fst (app Sample.dirname Sample.dirname None
                 (Request HEAD "/a%20b.txt") Scenario.jammed)) = 200.
Proof.
  split; [reflexivity|]. split; [|split].
  - destruct (static_error_is_500 Sample.dirname Sample.dirname None
                (Request GET "/18/131072/131072.png") Scenario.jammed
                "/18/131072/131072.png" Sample.other
                eq_refl eq_refl eq_refl eq_refl) as (H & _).
    apply H. reflexivity.
  - destruct (static_error_is_500 Sample.dirname Sample.dirname None
                (Request GET "/a%20b.txt") Scenario.jammed
                "/a b.txt" Sample.other
                eq_refl eq_refl eq_refl eq_refl) as (H & _).
    apply H. reflexivity.
  - destruct (static_error_is_500 Sample.dirname Sample.dirname None
                (Request HEAD "/a%20b.txt") Scenario.jammed
                "/a b.txt" Sample.other
                eq_refl eq_refl eq_refl eq_refl) as (_ & H).
    apply H. reflexivity.
Defined.

(** /18/131072/131072.png, with and without a final slash, and the 404
    of /19/0/a%20b.png. *)
Lemma tile_route_round_trip_sample :
  "/18/131072/131072.png/" = ("/" ++ tile_name (Sample.tile "png")) ++ "/" /\
  matchTile "/18/131072/131072.png" = Some (Sample.tile "png") /\
  matchTile "/18/131072/131072.png/" = Some (Sample.tile "png") /\
  routable (Sample.tile "png") = true /\
  decodeParams (Sample.tile "png") = inr (Sample.tile "png") /\
  body (fst (routes Sample.dirname None (Request GET "/19/0/a%20b.png")
               (cors fresh) Sample.plain))
    = JsonBody (JObj [ ("error", JStr "Tile not found");
                       ("path", JStr "19/0/a b.png") ]).
Proof.
  destruct (tile_route_round_trip Sample.dirname None)
    as (Hto & Hfrom & Hbody & _).
  destruct (Hfrom (Sample.tile "png") eq_refl) as (H1 & H2).
  destruct (Hto "/18/131072/131072.png" (Sample.tile "png") eq_refl)
    as (H3 & _ & H4).
  split; [reflexivity|]. split; [exact H1|]. split; [exact H2|].
  split; [exact H3|]. split; [apply H4; reflexivity|].
  apply (Hbody "/19/0/a%20b.png" (Params "19" "0" "a%20b" "png")
           (Params "19" "0" "a b" "png") Sample.plain); reflexivity.
Defined.

(** /HEALTH/ is the health check and nothing else. *)
Lemma routes_exclude_each_other_sample :
  matchLiteral "/health" "/HEALTH/" = true /\
  matchTile "/HEALTH/" = None /\
  matchLiteral "/tiles-info" "/HEALTH/" = false.
Proof.
  destruct (routes_exclude_each_other "/HEALTH/") as (H1 & H2 & _).
  split; [reflexivity|]. split.
  - apply H1. right. left. reflexivity.
  - apply H2. reflexivity.
Defined.
